(** * The aggregation engine of [split_data.py]

    A shallow embedding of the aggregation pass of [split_data.py] (pay
    calculation, timeline walk, per-date statistics, peer cohorts and
    percentiles, COLA pairing and evaluation) and of the row-based passes
    of [bench/split-data-stats-map-bench.py], with the properties the
    design document states about them.

    Conventions of the embedding.
    - A Python [float] is an exact rational ([Q]): rounding, infinities and
      NaN are outside the model.  [==] on floats is [Qeq], [<=] is [Qle].
    - A Python [str] is a [string] (a sequence of bytes); comparison is the
      lexicographic one, [String.leb].
    - A [dict] that is used as a map is a [gmap].  The loaded document,
      whose iteration order matters, is the list of its items; its names
      are distinct, which the properties that look an employee up assume.
    - A value that may be [None] is an [option].
    - The run is a function from the loaded document to what it leaves:
      the index, the aggregates the properties read, and the document
      itself, which the run updates in place.

    The file has the definitions first: the program, the vocabulary of
    the properties, and the rest of the program (medians, bucket files,
    aggregates, class transitions, the fields of the last snapshot, the
    optimized passes of the two benchmarks) with the vocabulary of its own
    properties.  The properties of the design document follow, and after
    them the further properties of the code. *)

From Stdlib Require Import QArith Qfield Lqa ZArith Lia Ascii String List Permutation Sorted Bool OrderedTypeEx.
From stdpp Require Import gmap strings list fin_maps.
From Equations Require Import Equations.

Local Open Scope Q_scope.

(** ** Strings *)

Definition chars (s : string) : list ascii := list_ascii_of_string s.
Definition of_chars (l : list ascii) : string := string_of_list_ascii l.

Definition code (c : ascii) : N := N_of_ascii c.

Definition is_digit (c : ascii) : bool :=
  ((48 <=? code c)%N && (code c <=? 57)%N)%bool.

Definition is_dot (c : ascii) : bool := (code c =? 46)%N.
Definition is_minus (c : ascii) : bool := (code c =? 45)%N.

(** [str.lower()], on the ASCII letters.  No character outside ASCII
    lowers to one of the letters of ["unclass"], so the substring test below
    is not affected by the restriction. *)
Definition lower_char (c : ascii) : ascii :=
  if ((65 <=? code c)%N && (code c <=? 90)%N)%bool
  then ascii_of_N (code c + 32)
  else c.

Definition lower (s : string) : string := of_chars (map lower_char (chars s)).

(** [str.strip()]: the ASCII white space characters. *)
Definition is_space (c : ascii) : bool :=
  (((9 <=? code c)%N && (code c <=? 13)%N)
   || ((28 <=? code c)%N && (code c <=? 32)%N))%bool.

Fixpoint lstrip (l : list ascii) : list ascii :=
  match l with
  | c :: r => if is_space c then lstrip r else l
  | [] => []
  end.

Definition strip (s : string) : string :=
  of_chars (rev (lstrip (rev (lstrip (chars s))))).

(** [needle in hay] for strings. *)
Fixpoint contains (needle hay : string) : bool :=
  (String.prefix needle hay
   || match hay with
      | String _ rest => contains needle rest
      | EmptyString => false
      end)%bool.

(** Truth value of an optional string: [None] and [""] are falsy. *)
Definition truthy (d : option string) : bool :=
  match d with
  | Some (String _ _) => true
  | _ => false
  end.

(** [d or dflt] for an optional string. *)
Definition str_or (d : option string) (dflt : string) : string :=
  match d with
  | Some (String c r) => String c r
  | _ => dflt
  end.

(** ** JSON values read by the engine

    A field of a job holds [null], a number or a string, as the input
    contract has it. *)

Inductive JVal : Type :=
  | JNull
  | JNum (q : Q)
  | JStr (s : string).

(** A job is the [dict] itself: whether it is empty is observable
    ([if primary_job:]). *)
Abbreviation Job := (gmap string JVal).

Record Snapshot : Type := mkSnapshot {
  Date : option string;
  Source : option string;
  Jobs : option (list Job)
}.

Record Person : Type := mkPerson {
  Timeline : list Snapshot
}.

(** [job.get(k)], with a [null] read as [None]. *)
Definition job_get (job : Job) (k : string) : option JVal :=
  match job !! k with
  | Some JNull => None
  | r => r
  end.

(** A text field: a string, or absent. *)
Definition job_text (job : Job) (k : string) : option string :=
  match job_get job k with
  | Some (JStr s) => Some s
  | _ => None
  end.

(** ** [parse_float] *)

(** [_NON_NUMERIC_RE.sub("", s)]: every character outside [0-9.-] goes. *)
Definition keeps (c : ascii) : bool := (is_digit c || is_dot c || is_minus c)%bool.

Definition clean (s : string) : list ascii := List.filter keeps (chars s).

Fixpoint digits_value (acc : Z) (l : list ascii) : option Z :=
  match l with
  | [] => Some acc
  | c :: r =>
      if is_digit c
      then digits_value (10 * acc + (Z.of_N (code c) - 48)) r
      else None
  end.

Fixpoint split_dot (l : list ascii) : list ascii * option (list ascii) :=
  match l with
  | [] => ([], None)
  | c :: r =>
      if is_dot c then ([], Some r)
      else let '(a, b) := split_dot r in (c :: a, b)
  end.

(** [float(cleaned)] on a string over [0-9.-]: an optional sign, digits,
    an optional point and digits, at least one digit in all; anything else
    raises [ValueError]. *)
Definition float_of_cleaned (l : list ascii) : option Q :=
  let '(neg, body) :=
    match l with
    | c :: r => if is_minus c then (true, r) else (false, l)
    | [] => (false, l)
    end in
  let '(ip, fp) := split_dot body in
  let fp := default [] fp in
  if (length ip + length fp =? 0)%nat then None
  else
    match digits_value 0 ip, digits_value 0 fp with
    | Some i, Some f =>
        let den := (10 ^ Z.of_nat (length fp))%Z in
        let num := (i * den + f)%Z in
        Some ((if neg then (- num)%Z else num) # Z.to_pos den)
    | _, _ => None
    end.

Definition parse_float (val : option JVal) : option Q :=
  match val with
  | None | Some JNull => None
  | Some (JNum q) => Some q
  | Some (JStr s) =>
      match clean s with
      | [] => None
      | cleaned => float_of_cleaned cleaned
      end
  end.

(** [x or 0.0] for an optional float: [None] and zero give [0.0]. *)
Definition num_or_zero (x : option Q) : Q :=
  match x with
  | Some q => if Qeq_bool q 0 then 0 else q
  | None => 0
  end.

Definition Qlt_bool (x y : Q) : bool := negb (Qle_bool y x).

(** ** [calc_job_rate_and_missing] and [calculate_snapshot_pay] *)

Definition calc_job_rate_and_missing (job : Job) : Q * Q * bool :=
  let raw_rate := job_get job "Annual Salary Rate" in
  let rate_num := parse_float raw_rate in
  let term := strip (str_or (job_text job "Salary Term") "") in
  let mis :=
    (String.eqb term "mo"
     && match rate_num with
        | Some r => Qlt_bool 0 r && Qle_bool r 12
        | None => false
        end)%bool in
  let rate := if mis then 0 else num_or_zero rate_num in
  let pct := num_or_zero (parse_float (job_get job "Appt Percent")) in
  (rate, pct, mis).

Definition job_pct (job : Job) : Q := snd (fst (calc_job_rate_and_missing job)).
Definition job_missing (job : Job) : bool := snd (calc_job_rate_and_missing job).

Definition add_job_pay (total : Q) (job : Job) : Q :=
  let '(rate, pct, _missing) := calc_job_rate_and_missing job in
  if Qlt_bool 0 rate then total + rate * (pct / 100) else total.

Definition calculate_snapshot_pay (snapshot : Snapshot) : Q :=
  match Jobs snapshot with
  | None | Some [] => 0
  | Some jobs => fold_left add_job_pay jobs 0
  end.

(** ** Sorting

    [list.sort] and [sorted] are stable; so is insertion from the right,
    which puts an element in front of the later ones it does not exceed. *)

Section Isort.
Context {A : Type} (le : A -> A -> bool).

Fixpoint insert_sorted (x : A) (l : list A) : list A :=
  match l with
  | [] => [x]
  | h :: t => if le x h then x :: l else h :: insert_sorted x t
  end.

Definition isort (l : list A) : list A := fold_right insert_sorted [] l.
End Isort.

(** [timeline.sort(key=lambda s: s.get("Date") or "")] *)
Definition date_key (s : Snapshot) : string := str_or (Date s) "".

Definition sort_timeline (timeline : list Snapshot) : list Snapshot :=
  isort (fun a b => String.leb (date_key a) (date_key b)) timeline.

(** [values.sort()] on pay values. *)
Definition sort_values (values : list Q) : list Q := isort Qle_bool values.

(** [sorted(snapshot_dates)] *)
Definition sorted_dates (dates : gset string) : list string :=
  isort String.leb (elements dates).

(** ** [bisect_left] and [bisect_right]

    The binary searches of the standard [bisect] module, on the whole list. *)

Equations? bisect_left_loop (a : list Q) (x : Q) (lo hi : nat) : nat
  by wf (hi - lo)%nat lt :=
  bisect_left_loop a x lo hi with lt_dec lo hi := {
    | right _ => lo
    | left _ =>
        let mid := ((lo + hi) / 2)%nat in
        if Qlt_bool (nth mid a 0) x
        then bisect_left_loop a x (S mid) hi
        else bisect_left_loop a x lo mid
  }.
Proof.
  all: assert (lo <= (lo + hi) / 2 < hi)%nat as H
    by (split; [apply Nat.div_le_lower_bound | apply Nat.Div0.div_lt_upper_bound]; lia);
    change (lo <= mid < hi)%nat in H; lia.
Qed.

Equations? bisect_right_loop (a : list Q) (x : Q) (lo hi : nat) : nat
  by wf (hi - lo)%nat lt :=
  bisect_right_loop a x lo hi with lt_dec lo hi := {
    | right _ => lo
    | left _ =>
        let mid := ((lo + hi) / 2)%nat in
        if Qlt_bool x (nth mid a 0)
        then bisect_right_loop a x lo mid
        else bisect_right_loop a x (S mid) hi
  }.
Proof.
  all: assert (lo <= (lo + hi) / 2 < hi)%nat as H
    by (split; [apply Nat.div_le_lower_bound | apply Nat.Div0.div_lt_upper_bound]; lia);
    change (lo <= mid < hi)%nat in H; lia.
Qed.

Definition bisect_left (a : list Q) (x : Q) : nat := bisect_left_loop a x 0 (length a).
Definition bisect_right (a : list Q) (x : Q) : nat := bisect_right_loop a x 0 (length a).

(** ** COLA events and [build_cola_pairs] *)

Record ColaEvent : Type := mkColaEvent {
  label : string;
  effective : string;
  pct : Q
}.

Record ColaPair : Type := mkColaPair {
  pair_label : string;
  pair_effective : string;
  pair_pct : Q;
  beforeDate : option string;
  afterDate : option string
}.

Definition COLA_EVENTS : list ColaEvent :=
  [ mkColaEvent "6.5% COLA" "2024-04-01" (13 # 2);
    mkColaEvent "2% COLA" "2024-11-01" 2;
    mkColaEvent "3.5% COLA" "2025-06-01" (7 # 2) ].

Definition COLA_TOLERANCE_PCT : Q := 2 # 5.

(** One turn of the inner loop over the dates, on [(before, after)]. *)
Definition scan_date (eff : string) (st : option string * option string) (d : string)
  : option string * option string :=
  let '(before, after) := st in
  let before := if String.leb d eff then Some d else before in
  let after :=
    match after with
    | None => if String.leb eff d then Some d else None
    | Some _ => after
    end in
  (before, after).

Definition pair_of_event (dates : list string) (event : ColaEvent) : ColaPair :=
  let '(before, after) := fold_left (scan_date (effective event)) dates (None, None) in
  mkColaPair (label event) (effective event) (pct event) before after.

Definition build_cola_pairs (dates : list string) (events : list ColaEvent) : list ColaPair :=
  match dates with
  | [] => []
  | _ => map (pair_of_event dates) events
  end.

(** ** The first pass of [main]: the walk over every timeline *)

Record StatsRow : Type := mkStatsRow {
  row_date : string;
  classified : Z;
  unclassified : Z;
  payroll : Q;
  payrollClassified : Q;
  payrollUnclassified : Q
}.

Definition new_stats_row (date : string) : StatsRow := mkStatsRow date 0 0 0 0 0.

(** The updates of one [stats_map] entry for a snapshot. *)
Definition add_to_row (is_unclass : bool) (snap_pay : Q) (r : StatsRow) : StatsRow :=
  let r := mkStatsRow (row_date r) (classified r) (unclassified r)
             (payroll r + snap_pay) (payrollClassified r) (payrollUnclassified r) in
  if is_unclass
  then mkStatsRow (row_date r) (classified r) (unclassified r + 1)
         (payroll r) (payrollClassified r) (payrollUnclassified r + snap_pay)
  else mkStatsRow (row_date r) (classified r + 1) (unclassified r)
         (payroll r) (payrollClassified r + snap_pay) (payrollUnclassified r).

(** [if date not in stats_map: stats_map[date] = {...}] and the updates. *)
Definition stats_add (date : string) (is_unclass : bool) (snap_pay : Q)
    (stats_map : gmap string StatsRow) : gmap string StatsRow :=
  let row := default (new_stats_row date) (stats_map !! date) in
  <[date := add_to_row is_unclass snap_pay row]> stats_map.

(** [peer_buckets[date][key].append(snap_pay)] on the nested [defaultdict]. *)
Definition peers_add (date key : string) (snap_pay : Q)
    (peer_buckets : gmap string (gmap string (list Q))) : gmap string (gmap string (list Q)) :=
  let bucket_map := default ∅ (peer_buckets !! date) in
  let values := default [] (bucket_map !! key) in
  <[date := <[key := values ++ [snap_pay]]> bucket_map]> peer_buckets.

(** The cohort key of a primary job, [f"{org}||{role}"]. *)
Definition peer_key_of (primary_job : Job) : string :=
  let org := str_or (job_text primary_job "Job Orgn") "Unknown" in
  let role := str_or (job_text primary_job "Job Title") "Unknown" in
  org +:+ "||" +:+ role.

(** [jobs[0] if jobs else None], then [if primary_job:] (an empty [dict]
    is falsy). *)
Definition primary_key (jobs : list Job) : option string :=
  match jobs with
  | primary_job :: _ =>
      if bool_decide (primary_job = ∅) then None else Some (peer_key_of primary_job)
  | [] => None
  end.

Definition source_is_unclass (snap : Snapshot) : bool :=
  contains "unclass" (lower (str_or (Source snap) "")).

(** What the walk accumulates across all employees. *)
Record Globals : Type := mkGlobals {
  snapshot_dates : gset string;
  stats_map : gmap string StatsRow;
  peer_buckets : gmap string (gmap string (list Q))
}.

(** The variables of one employee's walk. *)
Record Walk : Type := mkWalk {
  prev_is_unclass : option bool;
  was_excluded : bool;
  first_exclusion_date : option string;
  started_classified : option bool;
  is_unclass : bool;
  snap_by_date_pay : gmap string Q
}.

Definition init_globals : Globals := mkGlobals ∅ ∅ ∅.
Definition init_walk : Walk := mkWalk None false None None false ∅.

(** The exclusion tracking of one snapshot, on
    [(started_classified, was_excluded, first_exclusion_date)]. *)
Definition track_exclusion (w : Walk) (is_unclass : bool) (date : option string)
  : option bool * bool * option string :=
  let started :=
    match started_classified w with
    | None => Some (negb is_unclass)
    | s => s
    end in
  let entered :=
    match prev_is_unclass w with
    | Some prev => (negb prev && is_unclass)%bool
    | None => false
    end in
  if (entered && default false started)%bool
  then (started, true,
        if truthy (first_exclusion_date w) then first_exclusion_date w else date)
  else (started, was_excluded w, first_exclusion_date w).

(** The body of the loop over a timeline.  The year counts of the
    transitions, the role sets and the last snapshot's pay flags, which no
    property below reads, are not carried. *)
Definition walk_snapshot (st : Globals * Walk) (snap : Snapshot) : Globals * Walk :=
  let '(g, w) := st in
  let date := Date snap in
  let is_unclass := source_is_unclass snap in
  let '(started, was_ex, first_ex) := track_exclusion w is_unclass date in
  let jobs := default [] (Jobs snap) in
  let snap_pay := calculate_snapshot_pay snap in
  let g :=
    match date with
    | Some (String _ _ as d) =>
        mkGlobals ({[d]} ∪ snapshot_dates g)
          (stats_add d is_unclass snap_pay (stats_map g))
          (match primary_key jobs with
           | Some key => peers_add d key snap_pay (peer_buckets g)
           | None => peer_buckets g
           end)
    | _ => g
    end in
  let pays :=
    match date with
    | Some (String _ _ as d) => <[d := snap_pay]> (snap_by_date_pay w)
    | _ => snap_by_date_pay w
    end in
  (g, mkWalk (Some is_unclass) was_ex first_ex started is_unclass pays).

(** The fields of an index entry that the properties below read; the
    others ([Meta], [_lastJob], [_totalPay], [_payMissing], [_isFullTime],
    [_roleStr], [_searchStr]) are not carried. *)
Record IndexEntry : Type := mkIndexEntry {
  _hasTimeline : bool;
  _lastDate : string;
  _isUnclass : bool;
  _colaReceived : bool;
  _colaChecked : Z;
  _colaMissedLabels : list string;
  _colaMissing : bool;
  _wasExcluded : bool;
  _exclusionDate : option string;
  _peerPercentile : option Q
}.

(** The index entry written at the end of an employee's walk; the empty
    exclusion date is [Some ""]. *)
Definition entry_of_walk (timeline : list Snapshot) (w : Walk) : IndexEntry :=
  let last_snap := last timeline in
  let last_date := match last_snap with Some s => Date s | None => None end in
  let is_unclass :=
    match last_snap with
    | Some s => source_is_unclass s
    | None => is_unclass w
    end in
  let excluded := (was_excluded w && is_unclass)%bool in
  mkIndexEntry
    (match timeline with [] => false | _ => true end)
    (str_or last_date "")
    is_unclass
    true 0 [] false
    excluded
    (if excluded then first_exclusion_date w else Some "")
    None.

Record Phase1 : Type := mkPhase1 {
  globals : Globals;
  index : gmap string IndexEntry;
  snap_pay_map : gmap string (gmap string Q);
  data_after : list (string * Person)
}.

(** One turn of [for name, person in data.items()].  The timeline is
    sorted in place, so the loaded document changes with it: [data_after]
    is the document as the pass leaves it. *)
Definition walk_person (st : Phase1) (item : string * Person) : Phase1 :=
  let '(name, person) := item in
  let timeline := sort_timeline (Timeline person) in
  let '(g, w) := fold_left walk_snapshot timeline (globals st, init_walk) in
  mkPhase1 g
    (<[name := entry_of_walk timeline w]> (index st))
    (<[name := snap_by_date_pay w]> (snap_pay_map st))
    (data_after st ++ [(name, mkPerson timeline)]).

Definition first_pass (data : list (string * Person)) : Phase1 :=
  fold_left walk_person data (mkPhase1 init_globals ∅ ∅ []).

(** ** The peer percentile *)

(** [values.sort()] for every bucket: the lists are sorted in place, so
    the percentile lookups below read sorted lists. *)
Definition sort_buckets (peer_buckets : gmap string (gmap string (list Q)))
  : gmap string (gmap string (list Q)) :=
  (fun bucket_map : gmap string (list Q) => sort_values <$> bucket_map) <$> peer_buckets.

(** The rank computation on a bucket, after the [len(bucket) <= 1] and
    [last_pay <= 0] tests. *)
Definition percentile_in (bucket : list Q) (last_pay : Q) : option Q :=
  if ((length bucket <=? 1)%nat || Qle_bool last_pay 0)%bool then None
  else
    let below := Z.of_nat (bisect_left bucket last_pay) in
    let equal := (Z.of_nat (bisect_right bucket last_pay) - below)%Z in
    Some (((inject_Z below + (1 # 2) * inject_Z equal)
           / inject_Z (Z.of_nat (length bucket))) * 100).

(** [peer_buckets.get(date)] then [date_buckets.get(key) if date_buckets
    else None]. *)
Definition find_bucket (peer_buckets : gmap string (gmap string (list Q)))
    (date : option string) (key : string) : option (list Q) :=
  match date with
  | Some d =>
      match peer_buckets !! d with
      | Some date_buckets =>
          if bool_decide (date_buckets = ∅) then None else date_buckets !! key
      | None => None
      end
  | None => None
  end.

Definition peer_percentile (peer_buckets : gmap string (gmap string (list Q)))
    (person : Person) : option Q :=
  match last (Timeline person) with
  | None => None
  | Some last_snap =>
      match default [] (Jobs last_snap) with
      | [] => None
      | primary_job :: _ =>
          let key := peer_key_of primary_job in
          let date := Date last_snap in
          let last_pay := calculate_snapshot_pay last_snap in
          match find_bucket peer_buckets date key with
          | None | Some [] => None
          | Some bucket => percentile_in bucket last_pay
          end
      end
  end.

Definition set_peer_percentile (p : option Q) (e : IndexEntry) : IndexEntry :=
  mkIndexEntry (_hasTimeline e) (_lastDate e) (_isUnclass e)
    (_colaReceived e) (_colaChecked e) (_colaMissedLabels e) (_colaMissing e)
    (_wasExcluded e) (_exclusionDate e) p.

(** ** The COLA evaluation *)

Record ColaAcc : Type := mkColaAcc {
  cola_received : bool;
  cola_checked : Z;
  cola_missed : list string
}.

Definition init_cola : ColaAcc := mkColaAcc false 0 [].

(** [snap_by_date_pay.get(date, 0.0)] *)
Definition pay_at (pays : gmap string Q) (date : string) : Q := default 0 (pays !! date).

Definition pct_change (before_pay after_pay : Q) : Q :=
  ((after_pay - before_pay) / before_pay) * 100.

(** The body of [for event in cola_pairs]. *)
Definition cola_event (pays : gmap string Q) (acc : ColaAcc) (event : ColaPair) : ColaAcc :=
  match beforeDate event, afterDate event with
  | Some (String _ _ as before_date), Some (String _ _ as after_date) =>
      if String.eqb before_date after_date then acc
      else
        let before_pay := pay_at pays before_date in
        let after_pay := pay_at pays after_date in
        if Qle_bool before_pay 0 then acc
        else
          let checked := (cola_checked acc + 1)%Z in
          if Qle_bool (pair_pct event - COLA_TOLERANCE_PCT) (pct_change before_pay after_pay)
          then mkColaAcc true checked (cola_missed acc)
          else mkColaAcc (cola_received acc) checked (cola_missed acc ++ [pair_label event])
  | _, _ => acc
  end.

Definition cola_eval (pays : gmap string Q) (cola_pairs : list ColaPair) : ColaAcc :=
  fold_left (cola_event pays) cola_pairs init_cola.

Definition set_cola (received : bool) (checked : Z) (missed : list string) (missing : bool)
    (e : IndexEntry) : IndexEntry :=
  mkIndexEntry (_hasTimeline e) (_lastDate e) (_isUnclass e)
    received checked missed missing
    (_wasExcluded e) (_exclusionDate e) (_peerPercentile e).

(** The COLA fields of one index entry. *)
Definition cola_status (cola_pairs : list ColaPair) (pays : gmap string Q)
    (idx : IndexEntry) : IndexEntry :=
  if _isUnclass idx then set_cola true 0 [] false idx
  else
    let acc := cola_eval pays cola_pairs in
    set_cola (cola_received acc) (cola_checked acc) (cola_missed acc)
      (negb (cola_received acc) && (0 <? cola_checked acc)%Z)%bool idx.

(** One turn of [for name in data.keys()]. *)
Definition cola_person (cola_pairs : list ColaPair)
    (snap_pay_map : gmap string (gmap string Q))
    (index : gmap string IndexEntry) (name : string) : gmap string IndexEntry :=
  match index !! name with
  | None => index
  | Some idx =>
      <[name := cola_status cola_pairs (default ∅ (snap_pay_map !! name)) idx]> index
  end.

(** ** [main] *)

Record Result : Type := mkResult {
  result_index : gmap string IndexEntry;
  result_stats_map : gmap string StatsRow;
  result_peer_buckets : gmap string (gmap string (list Q));
  result_cola_pairs : list ColaPair;
  result_data : list (string * Person)
}.

(** [peer_percentiles], filled once per name in the order of the
    document, is the list of its items. *)
Definition peer_percentiles_of (peer_buckets : gmap string (gmap string (list Q)))
    (data : list (string * Person)) : list (string * option Q) :=
  map (fun item => (fst item, peer_percentile peer_buckets (snd item))) data.

Definition main (data : list (string * Person)) : Result :=
  let p1 := first_pass data in
  let data := data_after p1 in
  let peer_buckets := sort_buckets (peer_buckets (globals p1)) in
  let peer_percentiles := peer_percentiles_of peer_buckets data in
  let index :=
    fold_left (fun index item => alter (set_peer_percentile (snd item)) (fst item) index)
      peer_percentiles (index p1) in
  let cola_pairs := build_cola_pairs (sorted_dates (snapshot_dates (globals p1))) COLA_EVENTS in
  let index := fold_left (cola_person cola_pairs (snap_pay_map p1)) (map fst data) index in
  mkResult index (stats_map (globals p1)) peer_buckets cola_pairs data.

(** ** The row passes of the stats-map benchmark *)

Definition Row : Type := string * bool * Q * option string.

(** The rows of one timeline, as [load_rows] appends them. *)
Definition rows_of_timeline (timeline : list Snapshot) : list Row :=
  flat_map
    (fun snap =>
       match Date snap with
       | Some (String _ _ as date) =>
           [(date, source_is_unclass snap, calculate_snapshot_pay snap,
             primary_key (default [] (Jobs snap)))]
       | _ => []
       end)
    (sort_timeline timeline).

Definition load_rows (data : list (string * Person)) : list Row :=
  flat_map (fun item => rows_of_timeline (Timeline (snd item))) data.

Definition current_stats_only (rows : list Row) : gmap string StatsRow :=
  fold_left
    (fun stats_map (row : Row) =>
       let '(date, is_unclass, snap_pay, _peer_key) := row in
       stats_add date is_unclass snap_pay stats_map)
    rows ∅.

Definition current_stats_and_peers (rows : list Row)
  : gmap string StatsRow * gmap string (gmap string (list Q)) :=
  fold_left
    (fun st (row : Row) =>
       let '(date, is_unclass, snap_pay, peer_key) := row in
       (stats_add date is_unclass snap_pay (fst st),
        match peer_key with
        | Some (String _ _ as key) => peers_add date key snap_pay (snd st)
        | _ => snd st
        end))
    rows (∅, ∅).

(** The separate pass of the parity property: it folds the same rows and
    fills the cohort buckets only. *)
Definition cohorts_only (rows : list Row) : gmap string (gmap string (list Q)) :=
  fold_left
    (fun peer_buckets (row : Row) =>
       let '(date, _is_unclass, snap_pay, peer_key) := row in
       match peer_key with
       | Some (String _ _ as key) => peers_add date key snap_pay peer_buckets
       | _ => peer_buckets
       end)
    rows ∅.

Definition peer_bucket_counts (peer_buckets : gmap string (gmap string (list Q)))
  : gmap string (gmap string nat) :=
  (fun bucket_map : gmap string (list Q) => length <$> bucket_map) <$> peer_buckets.

(** * The vocabulary of the properties *)

(** ** Orders *)

(** [<=] and [<] on Python strings. *)
Definition str_le (a b : string) : Prop := String.leb a b = true.
Definition str_lt (a b : string) : Prop := String.ltb a b = true.

(** The order a boolean comparison decides. *)
Definition holds {A : Type} (le : A -> A -> bool) (x y : A) : Prop := le x y = true.


(** ** Pay *)


(** The sum of a list of pays. *)
Definition Qsum (l : list Q) : Q := fold_right Qplus 0 l.

(** ** COLA pairs *)

(** [r] is the latest of [dates] that is [<= eff], or [None] when there
    is none. *)
Definition latest_at_or_before (dates : list string) (eff : string)
    (r : option string) : Prop :=
  match r with
  | Some b => In b dates /\ str_le b eff /\ forall d, In d dates -> str_le d eff -> str_le d b
  | None => forall d, In d dates -> ~ str_le d eff
  end.

(** [r] is the earliest of [dates] that is [>= eff], or [None] when there
    is none. *)
Definition earliest_at_or_after (dates : list string) (eff : string)
    (r : option string) : Prop :=
  match r with
  | Some a => In a dates /\ str_le eff a /\ forall d, In d dates -> str_le eff d -> str_le a d
  | None => forall d, In d dates -> ~ str_le eff d
  end.

(** The [before] half of the scan over the dates. *)
Definition scan_before (eff : string) (before : option string) (d : string)
  : option string :=
  if String.leb d eff then Some d else before.

(** The pair brackets its effective date among [dates], and its two sides
    are not inverted. *)
Definition pair_brackets (dates : list string) (p : ColaPair) : Prop :=
  latest_at_or_before dates (pair_effective p) (beforeDate p)
  /\ earliest_at_or_after dates (pair_effective p) (afterDate p)
  /\ forall b a, beforeDate p = Some b -> afterDate p = Some a -> String.ltb a b = false.

(** ** The walk of one employee *)

(** The two halves of the loop body: what it does to the accumulators
    shared by all employees, and what it does to the variables of the
    employee at hand.  Neither reads the other. *)
Definition walk_global (g : Globals) (snap : Snapshot) : Globals :=
  fst (walk_snapshot (g, init_walk) snap).

Definition walk_local (w : Walk) (snap : Snapshot) : Walk :=
  snd (walk_snapshot (init_globals, w) snap).

(** The variables of an employee after the walk of the timeline. *)
Definition walk_of (timeline : list Snapshot) : Walk :=
  fold_left walk_local timeline init_walk.

(** The employee as the first pass leaves it in the document. *)
Definition sorted_person (person : Person) : Person :=
  mkPerson (sort_timeline (Timeline person)).

(** The index entry and the pay-by-date map the first pass leaves for an
    employee. *)
Definition entry_of_person (person : Person) : IndexEntry :=
  entry_of_walk (sort_timeline (Timeline person)) (walk_of (sort_timeline (Timeline person))).

Definition pays_of_person (person : Person) : gmap string Q :=
  snap_by_date_pay (walk_of (sort_timeline (Timeline person))).

(** The index entry an employee has at the end of the run: the entry of
    the walk with the percentile and then the COLA fields written into
    it. *)
Definition final_entry (data : list (string * Person)) (person : Person) : IndexEntry :=
  cola_status (result_cola_pairs (main data)) (pays_of_person person)
    (set_peer_percentile
       (peer_percentile (result_peer_buckets (main data)) (sorted_person person))
       (entry_of_person person)).

(** Whether the last snapshot of the sorted timeline is unclassified. *)
Definition last_is_unclass (person : Person) : bool :=
  match last (sort_timeline (Timeline person)) with
  | Some snap => source_is_unclass snap
  | None => false
  end.

(** ** Exclusion *)








(** ** COLA evaluation *)


(** The invariant of the loop over the pairs, [bound] counting the pairs
    seen so far. *)
Definition acc_inv (labels : list string) (bound : Z) (acc : ColaAcc) : Prop :=
  (Z.of_nat (length (cola_missed acc)) <= cola_checked acc <= bound)%Z
  /\ Forall (fun l => In l labels) (cola_missed acc)
  /\ (cola_received acc = false -> Z.of_nat (length (cola_missed acc)) = cola_checked acc).

(** The bookkeeping of the COLA fields of an index entry. *)
Definition cola_bookkeeping (e : IndexEntry) : Prop :=
  (Z.of_nat (length (_colaMissedLabels e)) <= _colaChecked e <= 3)%Z
  /\ Forall (fun l => In l (map label COLA_EVENTS)) (_colaMissedLabels e)
  /\ (_colaReceived e = false ->
      Z.of_nat (length (_colaMissedLabels e)) = _colaChecked e).

(** A relative error of at most one in a million, far above what a
    binary64 operation commits. *)
Definition small_error (d : Q) : Prop := - (1 # 1000000) <= d <= 1 # 1000000.

(** ** Binary search and rank *)




(** [y < x] and [y <= x], the tests the two searches go right on. *)
Definition below (x : Q) (y : Q) : bool := Qlt_bool y x.

(** [countStrictlyBelow] and [countEqual] of a pay in a bucket. *)
Definition count_below (bucket : list Q) (x : Q) : Z :=
  Z.of_nat (length (List.filter (below x) bucket)).

Definition count_equal (bucket : list Q) (x : Q) : Z :=
  Z.of_nat (length (List.filter (fun y => Qeq_bool y x) bucket)).

(** [(countStrictlyBelow + 0.5 * countEqual) / cohortSize * 100] *)
Definition mean_rank (bucket : list Q) (x : Q) : Q :=
  ((inject_Z (count_below bucket x) + (1 # 2) * inject_Z (count_equal bucket x))
   / inject_Z (Z.of_nat (length bucket))) * 100.

(** The cohort stored under a date and a key; empty when there is none. *)
Definition cohort (peer_buckets : gmap string (gmap string (list Q)))
    (date : option string) (key : string) : list Q :=
  match date with
  | Some d => default [] (default ∅ (peer_buckets !! d) !! key)
  | None => []
  end.


(** ** Rows *)

(** The row a snapshot contributes, none without a date. *)
Definition row_of (snap : Snapshot) : list Row :=
  match Date snap with
  | Some (String _ _ as date) =>
      [(date, source_is_unclass snap, calculate_snapshot_pay snap,
        primary_key (default [] (Jobs snap)))]
  | _ => []
  end.

(** What the stats pass and the cohort pass do with one row. *)
Definition stats_step (stats_map : gmap string StatsRow) (row : Row) : gmap string StatsRow :=
  let '(date, is_unclass, snap_pay, _peer_key) := row in
  stats_add date is_unclass snap_pay stats_map.

Definition peers_step (peer_buckets : gmap string (gmap string (list Q))) (row : Row)
  : gmap string (gmap string (list Q)) :=
  let '(date, _is_unclass, snap_pay, peer_key) := row in
  match peer_key with
  | Some (String _ _ as key) => peers_add date key snap_pay peer_buckets
  | _ => peer_buckets
  end.

(** The pay of a row. *)
Definition row_pay (row : Row) : Q := snd (fst row).


(** ** The loaded document *)


(** ** Sample documents *)

(** A job paid by the month with a miscoded rate, and a half-time job
    with a formatted rate. *)
Definition monthly_job : Job :=
  <["Annual Salary Rate" := JStr "$9.50"]>
    (<["Salary Term" := JStr "mo"]> (<["Appt Percent" := JNum 100]> ∅)).

Definition half_time_job : Job :=
  <["Annual Salary Rate" := JStr "$52,000.50"]> (<["Appt Percent" := JStr "50%"]> ∅).

(** A full-time analyst of the library at the given rate, and a
    snapshot holding this one job. *)
Definition sample_job (rate : Q) : Job :=
  <["Annual Salary Rate" := JNum rate]>
    (<["Appt Percent" := JNum 100]>
       (<["Job Orgn" := JStr "Library"]> (<["Job Title" := JStr "Analyst"]> ∅))).

Definition sample_snapshot (date source : string) (rate : Q) : Snapshot :=
  mkSnapshot (Some date) (Some source) (Some [sample_job rate]).

(** Loaded with the later snapshot first. *)
Definition alice : Person :=
  mkPerson [ sample_snapshot "2024-05-01" "Classified" 1070;
             sample_snapshot "2024-03-01" "Classified" 1000 ].

(** Classified, then unclassified. *)
Definition bob : Person :=
  mkPerson [ sample_snapshot "2024-03-01" "Classified" 2000;
             sample_snapshot "2024-05-01" "Unclassified" 2000 ].

(** No raise; [carol] and [dave] end with the same pay. *)
Definition carol : Person :=
  mkPerson [ sample_snapshot "2024-03-01" "Classified" 1000;
             sample_snapshot "2024-05-01" "Classified" 1000 ].

Definition dave : Person :=
  mkPerson [ sample_snapshot "2024-03-01" "Classified" 900;
             sample_snapshot "2024-05-01" "Classified" 1000 ].

(** In a cohort of her own, with a raise of 6.5 percent to the cent. *)
Definition erin : Person :=
  mkPerson
    [ mkSnapshot (Some "2024-03-01") (Some "Classified")
        (Some [<["Job Title" := JStr "Curator"]> (sample_job 2000)]);
      mkSnapshot (Some "2024-05-01") (Some "Classified")
        (Some [<["Job Title" := JStr "Curator"]> (sample_job 2130)]) ].

Definition sample_data : list (string * Person) :=
  [("alice", alice); ("bob", bob); ("carol", carol); ("dave", dave); ("erin", erin)].

(** [frank] leaves classified status twice, the first time on a snapshot
    without a date; [gina] leaves it and comes back. *)
Definition frank : Person :=
  mkPerson
    [ mkSnapshot None (Some "Classified") None;
      mkSnapshot None (Some "Unclassified") None;
      mkSnapshot (Some "2024-01-01") (Some "Classified") None;
      mkSnapshot (Some "2024-02-01") (Some "Unclassified") None ].

Definition gina : Person :=
  mkPerson
    [ mkSnapshot (Some "2024-01-01") (Some "Classified") None;
      mkSnapshot (Some "2024-02-01") (Some "Unclassified") None;
      mkSnapshot (Some "2024-03-01") (Some "Classified") None ].

Definition returning_data : list (string * Person) := [("frank", frank); ("gina", gina)].

(** * The rest of the program *)

(** ** More on [parse_float] and the pay of a snapshot: vocabulary *)

(** What [float] accepts over [0-9.-]: an optional leading minus, digits,
    optionally a point and more digits, with at least one digit in all. *)
Definition decimal_shape (l : list ascii) : Prop :=
  exists (neg : bool) (ip : list ascii) (fp : option (list ascii)),
    l = (if neg then ["-"%char] else []) ++ ip
        ++ match fp with Some f => "."%char :: f | None => [] end
    /\ Forall (fun c => is_digit c = true) ip
    /\ Forall (fun c => is_digit c = true) (default [] fp)
    /\ (0 < length ip + length (default [] fp))%nat.

(** A snapshot whose only job has a negative appointment percent. *)
Definition negative_percent_snapshot : Snapshot :=
  mkSnapshot (Some "2024-03-01") None
    (Some [<["Annual Salary Rate" := JNum 1000]> (<["Appt Percent" := JStr "-50"]> ∅)]).

(** ** [median] and the peer medians *)

Definition _median_sorted (vals : list Q) : Q :=
  let n := length vals in
  if (n =? 0)%nat then 0
  else
    let mid := Nat.shiftr n 1 in
    if negb (Nat.land n 1 =? 0)%nat then nth mid vals 0
    else (nth (mid - 1) vals 0 + nth mid vals 0) * (1 # 2).

Definition median (values : list Q) (presorted : bool) : Q :=
  let n := length values in
  if (n =? 0)%nat then 0
  else if (n =? 1)%nat then nth 0 values 0
  else if (n =? 2)%nat then (nth 0 values 0 + nth 1 values 0) / 2
  else
    let vals := if presorted then values else sort_values values in
    _median_sorted vals.

(** [peer_median_map[date][key] = median(values, presorted=True)], read
    off the buckets once [values.sort()] has sorted them. *)
Definition peer_median_map (sorted_buckets : gmap string (gmap string (list Q)))
  : gmap string (gmap string Q) :=
  (fun bucket_map : gmap string (list Q) =>
     (fun values => median values true) <$> bucket_map) <$> sorted_buckets.

(** *** Vocabulary *)

(** How many values of a list are at most [m], and how many at least. *)
Definition values_at_most (m : Q) (values : list Q) : nat :=
  length (List.filter (fun v => Qle_bool v m) values).

Definition values_at_least (m : Q) (values : list Q) : nat :=
  length (List.filter (fun v => Qle_bool m v) values).

(** The entry of a two-level map. *)
Definition lookup2 {V : Type} (m : gmap string (gmap string V)) (date key : string)
  : option V :=
  match m !! date with
  | Some inner => inner !! key
  | None => None
  end.

(** Four pays out of order. *)
Definition unsorted_pays : list Q := [40; 10; 30; 20].

(** The pays of the analysts of the library on 2024-05-01, in the order
    the first pass meets them in the sample document. *)
Definition analyst_pays : list Q :=
  Eval vm_compute in
    default [] (lookup2 (peer_buckets (globals (first_pass sample_data)))
                  "2024-05-01" "Library||Analyst").

(** ** [bucket_for_name] and the bucket files *)

Definition ascii_lowercase : string := "abcdefghijklmnopqrstuvwxyz".

(** [name.strip()[0]] raises [IndexError] on a name that is not empty and
    holds white space only: [None].  A character is a byte here and
    [strip] removes ASCII white space, so a name whose first character is
    outside ASCII goes to ["_"]: the program does the same but for white
    space outside ASCII, which it strips, and for the Kelvin sign, whose
    lower case is [k]. *)
Definition bucket_for_name (name : string) : option string :=
  match name with
  | EmptyString => Some "_"
  | _ =>
      match strip name with
      | EmptyString => None
      | String c _ =>
          let ch := lower (String c EmptyString) in
          Some (if contains ch ascii_lowercase then ch else "_")
      end
  end.

(** What a bucket file holds for an employee ([Meta] is not carried). *)
Record PersonFile : Type := mkPersonFile {
  file_Timeline : list Snapshot;
  file_wasExcluded : bool;
  file_exclusionDate : option string
}.

(** [buckets[bucket][name] = {...}], the last statement of an employee's
    turn of the first pass.  The two flags are the expressions the index
    entry is built with.  [None]: [bucket_for_name] has raised, and the run
    has stopped there. *)
Definition add_to_bucket (buckets : option (gmap string (gmap string PersonFile)))
    (item : string * Person) : option (gmap string (gmap string PersonFile)) :=
  let '(name, person) := item in
  let e := entry_of_person person in
  match buckets, bucket_for_name name with
  | Some buckets, Some bucket =>
      Some (<[bucket := <[name := mkPersonFile (sort_timeline (Timeline person))
                                    (_wasExcluded e) (_exclusionDate e)]>
                          (default ∅ (buckets !! bucket))]> buckets)
  | _, _ => None
  end.

Definition people_buckets (data : list (string * Person))
  : option (gmap string (gmap string PersonFile)) :=
  fold_left add_to_bucket data (Some ∅).

(** *** Vocabulary *)





(** ** The aggregates [historyStats] and [snapshotDates] *)

Definition by_date (a b : StatsRow) : bool := String.leb (row_date a) (row_date b).

(** [sorted(stats_map.values(), key=lambda x: x["date"])].  The values of
    the [dict] come in insertion order, which the [gmap] does not keep:
    the rows have distinct dates, and the sorted list is the same from
    any order of the rows ([history_stats_rows] below). *)
Definition history_stats (stats_map : gmap string StatsRow) : list StatsRow :=
  isort by_date (map snd (map_to_list stats_map)).

(** [sorted(snapshot_dates)] at the end of the run. *)
Definition snapshot_dates_sorted (data : list (string * Person)) : list string :=
  sorted_dates (snapshot_dates (globals (first_pass data))).

(** *** Vocabulary *)

Definition row_date_of (row : Row) : string := fst (fst (fst row)).
Definition row_unclass (row : Row) : bool := snd (fst (fst row)).

(** The rows of a date, and those of them of either class. *)
Definition rows_of_date (d : string) (rows : list Row) : list Row :=
  List.filter (fun row => String.eqb (row_date_of row) d) rows.

Definition class_rows (rows : list Row) : list Row :=
  List.filter (fun row => negb (row_unclass row)) rows.

Definition unclass_rows (rows : list Row) : list Row := List.filter row_unclass rows.

Definition pay_sum (rows : list Row) : Q := Qsum (map row_pay rows).

(** What a row adds to the statistics of its date. *)
Definition add_row (r : StatsRow) (row : Row) : StatsRow :=
  add_to_row (row_unclass row) (row_pay row) r.

(** An employee of the document has a snapshot of this date. *)
Definition date_observed (data : list (string * Person)) (d : string) : Prop :=
  exists name person snap,
    In (name, person) data /\ In snap (Timeline person) /\ Date snap = Some d.

(** ** The optimized passes of the stats-map benchmark *)

(** The row a [defaultdict] of the optimized passes starts a date with. *)
Definition blank_stats_row : StatsRow := mkStatsRow "" 0 0 0 0 0.

(** [entry = stats_map[date]], [if not entry["date"]: entry["date"] = date]
    and the updates. *)
Definition optimized_stats_add (date : string) (is_unclass : bool) (snap_pay : Q)
    (stats_map : gmap string StatsRow) : gmap string StatsRow :=
  let entry := default blank_stats_row (stats_map !! date) in
  let entry :=
    match row_date entry with
    | EmptyString =>
        mkStatsRow date (classified entry) (unclassified entry)
          (payroll entry) (payrollClassified entry) (payrollUnclassified entry)
    | _ => entry
    end in
  <[date := add_to_row is_unclass snap_pay entry]> stats_map.

Definition optimized_stats_only (rows : list Row) : gmap string StatsRow :=
  fold_left
    (fun stats_map (row : Row) =>
       let '(date, is_unclass, snap_pay, _peer_key) := row in
       optimized_stats_add date is_unclass snap_pay stats_map)
    rows ∅.

Definition optimized_stats_and_peers (rows : list Row)
  : gmap string StatsRow * gmap string (gmap string (list Q)) :=
  fold_left
    (fun st (row : Row) =>
       let '(date, is_unclass, snap_pay, peer_key) := row in
       (optimized_stats_add date is_unclass snap_pay (fst st),
        match peer_key with
        | Some (String _ _ as key) => peers_add date key snap_pay (snd st)
        | _ => snd st
        end))
    rows (∅, ∅).

(** *** Vocabulary *)

(** Every row of the statistics carries the date it is stored under. *)
Definition dated (stats_map : gmap string StatsRow) : Prop :=
  map_Forall (fun date r => row_date r = date) stats_map.

(** ** The COLA-loop benchmark *)

(** [(cola_received, cola_checked, tuple(cola_missed), missing)] *)
Definition ColaResult : Type := bool * Z * list string * bool.

Definition cola_result (acc : ColaAcc) : ColaResult :=
  (cola_received acc, cola_checked acc, cola_missed acc,
   (negb (cola_received acc) && (0 <? cola_checked acc)%Z)%bool).

(** [run_current]: the loop of [main] over the names, on the fixture;
    [index] holds the [_isUnclass] flag of a name. *)
Definition run_current (names : list string) (index : gmap string bool)
    (snap_pay_map : gmap string (gmap string Q)) (cola_pairs : list ColaPair)
  : gmap string ColaResult :=
  fold_left
    (fun results name =>
       match index !! name with
       | None => results
       | Some true => <[name := (true, 0%Z, [], false)]> results
       | Some false =>
           <[name := cola_result (cola_eval (default ∅ (snap_pay_map !! name)) cola_pairs)]>
             results
       end)
    names ∅.

(** [(before_date, after_date, required_pct, label)] *)
Definition ColaEvalPair : Type := string * string * Q * string.

(** The body of [for before_date, after_date, required_pct, label in
    cola_eval_pairs]. *)
Definition optimized_event (pays : gmap string Q) (acc : ColaAcc) (p : ColaEvalPair)
  : ColaAcc :=
  let '(before_date, after_date, required_pct, label) := p in
  let before_pay := pay_at pays before_date in
  if Qle_bool before_pay 0 then acc
  else
    let after_pay := pay_at pays after_date in
    let checked := (cola_checked acc + 1)%Z in
    if Qle_bool required_pct (pct_change before_pay after_pay)
    then mkColaAcc true checked (cola_missed acc)
    else mkColaAcc (cola_received acc) checked (cola_missed acc ++ [label]).

Definition run_optimized (names : list string) (index : gmap string bool)
    (snap_pay_map : gmap string (gmap string Q)) (cola_eval_pairs : list ColaEvalPair)
  : gmap string ColaResult :=
  fold_left
    (fun results name =>
       match index !! name with
       | None => results
       | Some true => <[name := (true, 0%Z, [], false)]> results
       | Some false =>
           <[name := cola_result
                       (fold_left (optimized_event (default ∅ (snap_pay_map !! name)))
                          cola_eval_pairs init_cola)]>
             results
       end)
    names ∅.

(** [load_fixture]: the pairs the optimized loop evaluates. *)
Definition eval_pair_of (event : ColaPair) : list ColaEvalPair :=
  match beforeDate event, afterDate event with
  | Some (String _ _ as before_date), Some (String _ _ as after_date) =>
      if String.eqb before_date after_date then []
      else [(before_date, after_date, pair_pct event - COLA_TOLERANCE_PCT, pair_label event)]
  | _, _ => []
  end.





(** *** Vocabulary *)










(** ** The class transitions of a year *)

Record TransitionRow : Type := mkTransitionRow {
  year : string;
  toUnclassified : Z;
  toClassified : Z
}.

(** [date[:4]]; a character is a byte here, which is what the dates of
    the reports are made of. *)
Definition year_of (date : string) : string := String.substring 0 4 date.

(** The third test on a snapshot in the loop over a timeline: a change of
    class on a dated snapshot is counted under the year of the date. *)
Definition count_transition (class_transitions : gmap string TransitionRow)
    (prev_is_unclass : option bool) (snap : Snapshot) : gmap string TransitionRow :=
  let is_unclass := source_is_unclass snap in
  match prev_is_unclass, Date snap with
  | Some prev, Some (String _ _ as date) =>
      if Bool.eqb is_unclass prev then class_transitions
      else
        match year_of date with
        | EmptyString => class_transitions
        | yr =>
            let entry := default (mkTransitionRow yr 0 0) (class_transitions !! yr) in
            <[yr := if is_unclass
                    then mkTransitionRow (year entry) (toUnclassified entry + 1)
                           (toClassified entry)
                    else mkTransitionRow (year entry) (toUnclassified entry)
                           (toClassified entry + 1)]>
              class_transitions
        end
  | _, _ => class_transitions
  end.

(** The loop over a timeline, on [(class_transitions, prev_is_unclass)]. *)
Definition transitions_snapshot (st : gmap string TransitionRow * option bool)
    (snap : Snapshot) : gmap string TransitionRow * option bool :=
  (count_transition (fst st) (snd st) snap, Some (source_is_unclass snap)).

Definition transitions_person (class_transitions : gmap string TransitionRow)
    (item : string * Person) : gmap string TransitionRow :=
  fst (fold_left transitions_snapshot (sort_timeline (Timeline (snd item)))
         (class_transitions, None)).

Definition class_transitions (data : list (string * Person))
  : gmap string TransitionRow :=
  fold_left transitions_person data ∅.

Definition by_year (a b : TransitionRow) : bool := String.leb (year a) (year b).

(** [sorted(class_transitions.values(), key=lambda x: x["year"])]; the
    rows have distinct years, so that the order the [dict] yields them in
    does not show. *)
Definition class_transitions_sorted (data : list (string * Person))
  : list TransitionRow :=
  isort by_year (map snd (map_to_list (class_transitions data))).

(** *** Vocabulary *)

(** A class change: a dated snapshot whose class is not that of the
    snapshot before it in the sorted timeline.  It is held as the year of
    the date and the class entered. *)
Definition change_of (step : Snapshot * Snapshot) : list (string * bool) :=
  let '(before, snap) := step in
  if (truthy (Date snap)
      && xorb (source_is_unclass before) (source_is_unclass snap))%bool
  then [(year_of (str_or (Date snap) ""), source_is_unclass snap)]
  else [].

(** The class changes of a timeline, from its consecutive snapshots. *)
Definition changes_of (timeline : list Snapshot) : list (string * bool) :=
  flat_map change_of (combine timeline (tl timeline)).

(** The class changes of the document. *)
Definition all_changes (data : list (string * Person)) : list (string * bool) :=
  flat_map (fun item => changes_of (sort_timeline (Timeline (snd item)))) data.




(** [gina] and [frank] of the second sample change class four times in
    2024. *)
Definition changes_2024 : list (string * bool) :=
  Eval vm_compute in all_changes returning_data.

(** ** What the first pass keeps of the last snapshot *)

(** [total_pay], [pay_missing] and [is_full_time]: the loop over the
    timeline sets them on the turn [idx == len(timeline) - 1]. *)
Definition last_flags_step (n : nat) (st : nat * (Q * bool * bool)) (snap : Snapshot)
  : nat * (Q * bool * bool) :=
  let '(idx, (total_pay, pay_missing, is_full_time)) := st in
  let jobs := default [] (Jobs snap) in
  (S idx,
   if (idx =? n - 1)%nat
   then (calculate_snapshot_pay snap,
         existsb job_missing jobs,
         (is_full_time || existsb (fun job => Qle_bool 100 (job_pct job)) jobs)%bool)
   else (total_pay, pay_missing, is_full_time)).

Definition last_flags (timeline : list Snapshot) : Q * bool * bool :=
  snd (fold_left (last_flags_step (length timeline)) timeline (0%nat, (0, false, false))).

(** [latest_class_date] and [latest_unclass_date], updated after the loop
    over the timeline of an employee. *)
Definition latest_step (st : string * string) (item : string * Person) : string * string :=
  let '(latest_class_date, latest_unclass_date) := st in
  let timeline := sort_timeline (Timeline (snd item)) in
  match last timeline with
  | Some last_snap =>
      match Date last_snap with
      | Some (String _ _ as last_date) =>
          if source_is_unclass last_snap
          then (latest_class_date,
                if String.ltb latest_unclass_date last_date
                then last_date else latest_unclass_date)
          else (if String.ltb latest_class_date last_date
                then last_date else latest_class_date,
                latest_unclass_date)
      | _ => st
      end
  | None => st
  end.

Definition latest_dates (data : list (string * Person)) : string * string :=
  fold_left latest_step data ("", "").

(** *** Vocabulary *)

(** The later of two dates. *)
Definition later (a b : string) : string := if String.ltb a b then b else a.

(** The latest date among the entries of a class is [d]: no entry of the
    class has a later [_lastDate], and [d] is empty or the [_lastDate] of
    one of them. *)
Definition latest_of_class (index : gmap string IndexEntry) (is_unclass : bool)
    (d : string) : Prop :=
  (forall name e, index !! name = Some e -> _isUnclass e = is_unclass ->
                  str_le (_lastDate e) d)
  /\ (d = ""
      \/ exists name e, index !! name = Some e /\ _isUnclass e = is_unclass
                        /\ _lastDate e = d).

(** The fields of an index entry the first pass computes and the later
    passes leave alone. *)
Definition same_walk_fields (e0 e : IndexEntry) : Prop :=
  _hasTimeline e = _hasTimeline e0 /\ _lastDate e = _lastDate e0
  /\ _isUnclass e = _isUnclass e0 /\ _wasExcluded e = _wasExcluded e0
  /\ _exclusionDate e = _exclusionDate e0.


(** An employee with two snapshots of one date. *)
Definition twice_a_day : Person :=
  mkPerson [ sample_snapshot "2024-03-01" "Classified" 1000;
             sample_snapshot "2024-03-01" "Classified" 1200 ].

(** * Properties *)

(** ** The order on strings *)

Lemma str_le_cases (a b : string) :
  str_le a b <-> String.compare a b = Lt \/ a = b.
Proof.
  unfold str_le, String.leb. rewrite <- (String_as_OT.cmp_eq a b).
  unfold String_as_OT.cmp.
  destruct (String.compare a b); intuition congruence.
Qed.

Lemma str_le_refl (a : string) : str_le a a.
Proof. apply str_le_cases. now right. Qed.

Lemma str_le_trans (a b c : string) : str_le a b -> str_le b c -> str_le a c.
Proof.
  rewrite !str_le_cases. intros [Hab | ->] [Hbc | ->]; auto.
  left. apply String_as_OT.cmp_lt.
  eapply String_as_OT.lt_trans; apply String_as_OT.cmp_lt; eassumption.
Qed.

Lemma str_le_total (a b : string) : str_le a b \/ str_le b a.
Proof. apply String.leb_total. Qed.

Lemma str_lt_not_le (a b : string) : str_lt a b -> ~ str_le b a.
Proof.
  unfold str_lt, str_le, String.ltb, String.leb.
  rewrite (String.compare_antisym a b).
  destruct (String.compare b a); simpl; congruence.
Qed.

Lemma str_le_not_lt (a b : string) : str_le a b -> String.ltb b a = false.
Proof.
  intros Hle. destruct (String.ltb b a) eqn:Hlt; [|reflexivity].
  now apply str_lt_not_le in Hlt.
Qed.

(** ** Insertion sort *)

Section IsortFacts.
Context {A : Type} (le : A -> A -> bool).
Implicit Types (x : A) (l : list A).

Local Abbreviation leP := (holds le).

Lemma insert_sorted_perm x l : Permutation (insert_sorted le x l) (x :: l).
Proof.
  induction l as [|h t IH]; simpl; [reflexivity|].
  destruct (le x h); [reflexivity|].
  rewrite IH. apply perm_swap.
Qed.

Lemma isort_perm l : Permutation (isort le l) l.
Proof.
  induction l as [|h t IH]; simpl; [reflexivity|].
  rewrite insert_sorted_perm. now constructor.
Qed.

Lemma isort_length l : length (isort le l) = length l.
Proof. apply Permutation_length, isort_perm. Qed.



Hypothesis le_total : forall x y, leP x y \/ leP y x.
Hypothesis le_trans : forall x y z, leP x y -> leP y z -> leP x z.

Lemma insert_sorted_sorted x l :
  StronglySorted leP l -> StronglySorted leP (insert_sorted le x l).
Proof.
  induction 1 as [|h t Hs IH Hall]; simpl.
  - repeat constructor.
  - destruct (le x h) eqn:Hxh.
    + constructor; [now constructor|].
      constructor; [exact Hxh|].
      eapply List.Forall_impl; [|exact Hall]. intros y Hy. now apply le_trans with h.
    + constructor; [exact IH|].
      assert (Hhx : leP h x).
      { destruct (le_total x h) as [Hc | Hc]; [unfold holds in Hc; congruence | exact Hc]. }
      eapply Permutation_Forall; [symmetry; apply insert_sorted_perm|].
      now constructor.
Qed.

Lemma isort_sorted l : StronglySorted leP (isort le l).
Proof.
  induction l as [|h t IH]; simpl; [constructor|].
  now apply insert_sorted_sorted.
Qed.
End IsortFacts.

(** ** [build_cola_pairs] *)

Section Scan.
Variable eff : string.

Lemma scan_fold (dates : list string) (before after : option string) :
  fold_left (scan_date eff) dates (before, after)
  = (fold_left (scan_before eff) dates before,
     match after with
     | Some _ => after
     | None => List.find (String.leb eff) dates
     end).
Proof.
  revert before after.
  induction dates as [|d ds IH]; intros before after; simpl.
  - now destruct after.
  - rewrite IH. f_equal. destruct after as [a|]; [reflexivity|].
    now destruct (String.leb eff d).
Qed.

Lemma scan_before_spec (dates : list string) (before : option string) :
  StronglySorted str_le dates ->
  ((forall d, In d dates -> ~ str_le d eff) /\ fold_left (scan_before eff) dates before = before)
  \/ (exists b, fold_left (scan_before eff) dates before = Some b
        /\ latest_at_or_before dates eff (Some b)).
Proof.
  intros Hs. revert before.
  induction Hs as [|h t Hs IH Hall]; intros before; simpl.
  - left. split; [intros d []|reflexivity].
  - rewrite List.Forall_forall in Hall.
    destruct (IH (scan_before eff before h)) as [[Hnone Heq] | (b & Heq & Hin & Hle & Hmax)].
    + rewrite Heq. unfold scan_before. destruct (String.leb h eff) eqn:Hh.
      * right. exists h. split; [reflexivity|]. split; [now left|]. split; [exact Hh|].
        intros d [<- | Hd] Hd'; [apply str_le_refl | now apply Hnone in Hd'].
      * left. split; [|reflexivity].
        intros d [<- | Hd]; [unfold str_le; congruence | now apply Hnone].
    + right. exists b. split; [exact Heq|]. split; [now right|]. split; [exact Hle|].
      intros d [<- | Hd] Hd'; [now apply Hall | now apply Hmax].
Qed.

Lemma scan_after_spec (dates : list string) :
  StronglySorted str_le dates ->
  earliest_at_or_after dates eff (List.find (String.leb eff) dates).
Proof.
  induction 1 as [|h t Hs IH Hall]; simpl.
  - intros d [].
  - rewrite List.Forall_forall in Hall.
    destruct (String.leb eff h) eqn:Hh; simpl.
    + split; [now left|]. split; [exact Hh|].
      intros d [<- | Hd] _; [apply str_le_refl | now apply Hall].
    + destruct (List.find (String.leb eff) t) as [a|]; simpl in *.
      * destruct IH as (Hin & Hle & Hmin). split; [now right|]. split; [exact Hle|].
        intros d [<- | Hd] Hd'; [unfold str_le in Hd'; congruence | now apply Hmin].
      * intros d [<- | Hd]; [unfold str_le; congruence | now apply IH].
Qed.
End Scan.

Lemma pair_of_event_brackets (dates : list string) (event : ColaEvent) :
  StronglySorted str_le dates -> pair_brackets dates (pair_of_event dates event).
Proof.
  intros Hs. unfold pair_of_event. rewrite scan_fold.
  pose proof (scan_after_spec (effective event) dates Hs) as Hafter.
  assert (Hbefore : latest_at_or_before dates (effective event)
                      (fold_left (scan_before (effective event)) dates None)).
  { destruct (scan_before_spec (effective event) dates None Hs)
      as [[Hnone ->] | (b & -> & Hb)]; [exact Hnone | exact Hb]. }
  unfold pair_brackets; simpl. split; [exact Hbefore|]. split; [exact Hafter|].
  intros b a Hb Ha. rewrite Hb in Hbefore. rewrite Ha in Hafter.
  destruct Hbefore as (_ & Hle1 & _), Hafter as (_ & Hle2 & _).
  apply str_le_not_lt. now apply str_le_trans with (effective event).
Qed.

(** C3. For dates in ascending order, every pair that [build_cola_pairs]
    returns has as [beforeDate] the latest date at or before its effective
    date and as [afterDate] the earliest date at or after it, [None]
    standing for a side where no date qualifies; when both sides are set
    [afterDate < beforeDate] does not hold; and with at least one date
    there is one pair per event, in order, with the event's label,
    effective date and percentage. *)
Theorem build_cola_pairs_brackets (dates : list string) (events : list ColaEvent) :
  Sorted str_le dates ->
  Forall (pair_brackets dates) (build_cola_pairs dates events)
  /\ (dates <> [] ->
      map (fun p => (pair_label p, pair_effective p, pair_pct p)) (build_cola_pairs dates events)
      = map (fun e => (label e, effective e, pct e)) events).
Proof.
  intros Hsorted.
  assert (Hs : StronglySorted str_le dates).
  { apply Sorted_StronglySorted; [|exact Hsorted]. intros a b c. apply str_le_trans. }
  split.
  - unfold build_cola_pairs. destruct dates as [|d ds]; [constructor|].
    apply List.Forall_forall. intros p Hp. apply in_map_iff in Hp as (event & <- & _).
    now apply pair_of_event_brackets.
  - intros Hne. unfold build_cola_pairs. destruct dates as [|d ds]; [congruence|].
    rewrite map_map. apply map_ext. intros e. unfold pair_of_event.
    now destruct (fold_left _ _ _).
Qed.

Lemma build_cola_pairs_brackets_witness :
  Forall (pair_brackets ["2024-03-01"; "2024-05-01"])
    (build_cola_pairs ["2024-03-01"; "2024-05-01"] COLA_EVENTS)
  /\ beforeDate (pair_of_event ["2024-03-01"; "2024-05-01"] (mkColaEvent "6.5% COLA" "2024-04-01" (13 # 2)))
     = Some "2024-03-01"
  /\ afterDate (pair_of_event ["2024-03-01"; "2024-05-01"] (mkColaEvent "6.5% COLA" "2024-04-01" (13 # 2)))
     = Some "2024-05-01".
Proof.
  split; [|split; reflexivity].
  apply (build_cola_pairs_brackets ["2024-03-01"; "2024-05-01"] COLA_EVENTS).
  repeat constructor.
Defined.

Lemma sorted_dates_sorted (dates : gset string) :
  StronglySorted str_le (sorted_dates dates).
Proof.
  apply (isort_sorted String.leb).
  - apply str_le_total.
  - apply str_le_trans.
Qed.

(** The pairs of a run bracket the effective dates among the dates the
    run has observed. *)
Lemma main_cola_pairs_bracket (data : list (string * Person)) :
  Forall (pair_brackets (sorted_dates (snapshot_dates (globals (first_pass data)))))
    (result_cola_pairs (main data)).
Proof.
  change (result_cola_pairs (main data))
    with (build_cola_pairs (sorted_dates (snapshot_dates (globals (first_pass data))))
            COLA_EVENTS).
  unfold build_cola_pairs.
  destruct (sorted_dates _) as [|d ds] eqn:Hdates; [constructor|].
  rewrite <- Hdates. apply List.Forall_forall. intros p Hp.
  apply in_map_iff in Hp as (event & <- & _).
  apply pair_of_event_brackets, sorted_dates_sorted.
Qed.

(** ** [calculate_snapshot_pay] *)

Lemma Qlt_bool_iff (x y : Q) : Qlt_bool x y = true <-> x < y.
Proof.
  unfold Qlt_bool. rewrite negb_true_iff. split.
  - intros Hf. apply Qnot_le_lt. intros Hle. apply Qle_bool_iff in Hle. congruence.
  - intros Hlt. destruct (Qle_bool y x) eqn:Hle; [|reflexivity].
    apply Qle_bool_iff in Hle. now apply Qlt_not_le in Hlt.
Qed.



Lemma is_dot_spec (c : ascii) : is_dot c = true <-> c = "."%char.
Proof.
  unfold is_dot, code. rewrite N.eqb_eq. split.
  - intros H. rewrite <- (ascii_N_embedding c), H. reflexivity.
  - now intros ->.
Qed.

Lemma is_minus_spec (c : ascii) : is_minus c = true <-> c = "-"%char.
Proof.
  unfold is_minus, code. rewrite N.eqb_eq. split.
  - intros H. rewrite <- (ascii_N_embedding c), H. reflexivity.
  - now intros ->.
Qed.





Example calculate_snapshot_pay_half_time :
  calculate_snapshot_pay (mkSnapshot (Some "2024-03-01") None (Some [monthly_job; half_time_job]))
  == 2600025 # 100.
Proof. reflexivity. Qed.

Example parse_float_not_a_number :
  parse_float (Some (JStr "12-5")) = None /\ parse_float (Some (JStr "n/a")) = None
  /\ parse_float (Some (JStr "1.2.3")) = None /\ parse_float (Some (JStr "-.5")) = Some (-5 # 10).
Proof. repeat split. Qed.

(** ** The walk, employee by employee *)

Lemma walk_snapshot_split (g : Globals) (w : Walk) (snap : Snapshot) :
  walk_snapshot (g, w) snap = (walk_global g snap, walk_local w snap).
Proof.
  unfold walk_global, walk_local, walk_snapshot.
  destruct (track_exclusion w _ _) as [[? ?] ?].
  destruct (track_exclusion init_walk _ _) as [[? ?] ?].
  reflexivity.
Qed.

Lemma walk_fold_split (timeline : list Snapshot) (g : Globals) (w : Walk) :
  fold_left walk_snapshot timeline (g, w)
  = (fold_left walk_global timeline g, fold_left walk_local timeline w).
Proof.
  revert g w. induction timeline as [|snap tl IH]; intros g w; cbn [fold_left]; [reflexivity|].
  now rewrite walk_snapshot_split, IH.
Qed.

Lemma walk_person_unfold (st : Phase1) (item : string * Person) :
  walk_person st item
  = mkPhase1
      (fold_left walk_global (sort_timeline (Timeline (snd item))) (globals st))
      (<[fst item := entry_of_person (snd item)]> (index st))
      (<[fst item := pays_of_person (snd item)]> (snap_pay_map st))
      (data_after st ++ [(fst item, sorted_person (snd item))]).
Proof.
  destruct item as [name person]. unfold walk_person.
  rewrite walk_fold_split. reflexivity.
Qed.

(** Folds that write one key per item. *)
Section FoldKeyed.
Context {X V : Type}.
Variable key : X -> string.
Variable G : X -> option V -> option V.
Variable upd : gmap string V -> X -> gmap string V.
Hypothesis upd_lookup : forall m x k,
  upd m x !! k = if decide (k = key x) then G x (m !! k) else m !! k.

Lemma fold_keyed_notin (l : list X) (m : gmap string V) (k : string) :
  ~ In k (map key l) -> fold_left upd l m !! k = m !! k.
Proof.
  revert m. induction l as [|x l IH]; intros m Hnotin; simpl; [reflexivity|].
  simpl in Hnotin. rewrite IH by tauto.
  rewrite upd_lookup. destruct (decide (k = key x)) as [->|]; [tauto | reflexivity].
Qed.

Lemma fold_keyed_in (l : list X) (m : gmap string V) (x : X) :
  List.NoDup (map key l) -> In x l ->
  fold_left upd l m !! key x = G x (m !! key x).
Proof.
  revert m. induction l as [|y l IH]; intros m Hnd Hin; simpl; [destruct Hin|].
  simpl in Hnd. apply List.NoDup_cons_iff in Hnd as [Hy Hnd].
  destruct Hin as [-> | Hin].
  - rewrite fold_keyed_notin by exact Hy.
    rewrite upd_lookup. now destruct (decide (key x = key x)).
  - rewrite IH by assumption. rewrite upd_lookup.
    destruct (decide (key x = key y)) as [Heq|]; [|reflexivity].
    exfalso. apply Hy. rewrite <- Heq. now apply in_map.
Qed.
End FoldKeyed.

Lemma first_pass_fold (data : list (string * Person)) (st : Phase1) :
  fold_left walk_person data st
  = mkPhase1
      (fold_left walk_global
         (flat_map (fun item => sort_timeline (Timeline (snd item))) data) (globals st))
      (fold_left (fun m item => <[fst item := entry_of_person (snd item)]> m) data (index st))
      (fold_left (fun m item => <[fst item := pays_of_person (snd item)]> m) data (snap_pay_map st))
      (data_after st ++ map (fun item => (fst item, sorted_person (snd item))) data).
Proof.
  revert st. induction data as [|item data IH]; intros st; simpl.
  - rewrite app_nil_r. now destruct st.
  - rewrite IH, walk_person_unfold. simpl.
    rewrite fold_left_app, <- app_assoc. reflexivity.
Qed.

Lemma first_pass_index (data : list (string * Person)) (name : string) (person : Person) :
  List.NoDup (map fst data) -> In (name, person) data ->
  index (first_pass data) !! name = Some (entry_of_person person).
Proof.
  intros Hnd Hin. unfold first_pass. rewrite first_pass_fold. simpl.
  apply (fold_keyed_in fst (fun item _ => Some (entry_of_person (snd item)))
           (fun m item => <[fst item := entry_of_person (snd item)]> m))
    with (x := (name, person)); [|assumption..].
  intros m x k. rewrite lookup_insert. destruct (decide (fst x = k)), (decide (k = fst x)); congruence.
Qed.

Lemma first_pass_pays (data : list (string * Person)) (name : string) (person : Person) :
  List.NoDup (map fst data) -> In (name, person) data ->
  snap_pay_map (first_pass data) !! name = Some (pays_of_person person).
Proof.
  intros Hnd Hin. unfold first_pass. rewrite first_pass_fold. simpl.
  apply (fold_keyed_in fst (fun item _ => Some (pays_of_person (snd item)))
           (fun m item => <[fst item := pays_of_person (snd item)]> m))
    with (x := (name, person)); [|assumption..].
  intros m x k. rewrite lookup_insert. destruct (decide (fst x = k)), (decide (k = fst x)); congruence.
Qed.

Lemma first_pass_data (data : list (string * Person)) :
  data_after (first_pass data) = map (fun item => (fst item, sorted_person (snd item))) data.
Proof. unfold first_pass. now rewrite first_pass_fold. Qed.

(** ** The index entry [main] emits for an employee *)

Lemma cola_person_lookup (cola_pairs : list ColaPair)
    (snap_pay_map : gmap string (gmap string Q))
    (index : gmap string IndexEntry) (name k : string) :
  cola_person cola_pairs snap_pay_map index name !! k
  = if decide (k = name)
    then cola_status cola_pairs (default ∅ (snap_pay_map !! name)) <$> index !! k
    else index !! k.
Proof.
  unfold cola_person. destruct (decide (k = name)) as [->|Hne].
  - destruct (index !! name) as [idx|] eqn:Hidx.
    + now rewrite lookup_insert_eq.
    + now rewrite Hidx.
  - destruct (index !! name); [|reflexivity]. now rewrite lookup_insert_ne.
Qed.

Lemma set_peer_lookup (index : gmap string IndexEntry) (item : string * option Q)
    (k : string) :
  alter (set_peer_percentile (snd item)) (fst item) index !! k
  = if decide (k = fst item)
    then set_peer_percentile (snd item) <$> index !! k
    else index !! k.
Proof.
  destruct (decide (k = fst item)) as [->|Hne].
  - apply lookup_alter_eq.
  - apply lookup_alter_ne. congruence.
Qed.

(** The names of a document are distinct: it is a [dict]. *)
Lemma main_index_lookup (data : list (string * Person)) (name : string) (person : Person) :
  List.NoDup (map fst data) -> In (name, person) data ->
  result_index (main data) !! name = Some (final_entry data person).
Proof.
  intros Hnd Hin. unfold final_entry, main. cbn [result_index result_cola_pairs result_peer_buckets].
  rewrite first_pass_data.
  set (buckets := sort_buckets (peer_buckets (globals (first_pass data)))).
  set (pairs := build_cola_pairs _ COLA_EVENTS).
  set (data' := map (fun item => (fst item, sorted_person (snd item))) data).
  assert (Hnames : map fst data' = map fst data).
  { unfold data'. rewrite map_map. reflexivity. }
  assert (Hnames' : map fst (peer_percentiles_of buckets data') = map fst data).
  { unfold peer_percentiles_of. rewrite map_map. exact Hnames. }
  rewrite (fold_keyed_in (fun k : string => k)
             (fun k o => cola_status pairs (default ∅ (snap_pay_map (first_pass data) !! k)) <$> o)
             (cola_person pairs (snap_pay_map (first_pass data)))
             (cola_person_lookup pairs (snap_pay_map (first_pass data)))
             (map fst data') _ name).
  2: { rewrite map_id, Hnames. exact Hnd. }
  2: { rewrite Hnames. now apply (in_map fst data (name, person)). }
  rewrite (fold_keyed_in fst
             (fun (item : string * option Q) o => set_peer_percentile (snd item) <$> o)
             (fun index item => alter (set_peer_percentile (snd item)) (fst item) index)
             set_peer_lookup
             (peer_percentiles_of buckets data') _
             (name, peer_percentile buckets (sorted_person person))).
  - cbn [fst snd]. rewrite (first_pass_index data name person Hnd Hin).
    rewrite (first_pass_pays data name person Hnd Hin). reflexivity.
  - rewrite Hnames'. exact Hnd.
  - unfold peer_percentiles_of, data'. rewrite map_map. cbn [fst snd].
    now apply (in_map (fun item => (fst item, peer_percentile buckets (sorted_person (snd item))))
                 data (name, person)).
Qed.

(** ** The sample documents *)

Ltac distinct_names :=
  repeat (constructor; [simpl; intuition discriminate|]); constructor.







Lemma returning_data_names : List.NoDup (map fst returning_data).
Proof. distinct_names. Qed.


(** ** The pay recorded at a date *)

Lemma walk_local_pays (w : Walk) (snap : Snapshot) :
  snap_by_date_pay (walk_local w snap)
  = match Date snap with
    | Some (String _ _ as d) => <[d := calculate_snapshot_pay snap]> (snap_by_date_pay w)
    | _ => snap_by_date_pay w
    end.
Proof.
  unfold walk_local, walk_snapshot.
  now destruct (track_exclusion w _ _) as [[? ?] ?].
Qed.

Lemma walk_pays_fold (timeline : list Snapshot) (w : Walk) (d : string) :
  d <> ""%string ->
  snap_by_date_pay (fold_left walk_local timeline w) !! d
  = match last (filter (fun snap => Date snap = Some d) timeline) with
    | Some snap => Some (calculate_snapshot_pay snap)
    | None => snap_by_date_pay w !! d
    end.
Proof.
  intros Hd. revert w. induction timeline as [|snap rest IH]; intros w; cbn [fold_left].
  - reflexivity.
  - rewrite IH, filter_cons, walk_local_pays.
    destruct (decide (Date snap = Some d)) as [Hs | Hs].
    + rewrite last_cons. destruct (last (filter _ rest)); [reflexivity|].
      rewrite Hs. destruct d as [|c r]; [congruence|]. apply lookup_insert_eq.
    + destruct (last (filter _ rest)); [reflexivity|].
      destruct (Date snap) as [[|c r]|]; try reflexivity.
      apply lookup_insert_ne. congruence.
Qed.

(** X21. The pay the COLA evaluation reads for an employee at a date: that of
    the last snapshot of the sorted timeline with this date, [0.0] when
    there is none. *)
Lemma pays_of_person_at (person : Person) (d : string) :
  d <> ""%string ->
  pay_at (pays_of_person person) d
  = match last (filter (fun snap => Date snap = Some d) (sort_timeline (Timeline person))) with
    | Some snap => calculate_snapshot_pay snap
    | None => 0
    end.
Proof.
  intros Hd. unfold pay_at, pays_of_person, walk_of.
  rewrite (walk_pays_fold _ _ _ Hd). now destruct (last _).
Qed.

(** ** The classification of a snapshot *)

Lemma prefix_app (needle hay : string) :
  String.prefix needle hay = true <-> exists suf, hay = (needle ++ suf)%string.
Proof.
  revert hay. induction needle as [|c needle IH]; intros hay; simpl.
  - split; [intros _; now exists hay | intros _; now destruct hay].
  - destruct hay as [|h hay]; [split; [discriminate | intros [suf Hs]; discriminate]|].
    simpl. destruct (Ascii.ascii_dec c h) as [->|Hne].
    + rewrite IH. split; intros [suf Hs]; exists suf; [now rewrite Hs | now injection Hs].
    + split; [discriminate | intros [suf Hs]; injection Hs; congruence].
Qed.

(** [contains] is the test [needle in hay]: the needle occurs somewhere. *)
Lemma contains_spec (needle hay : string) :
  contains needle hay = true <-> exists pre suf, hay = (pre ++ needle ++ suf)%string.
Proof.
  induction hay as [|h hay IH]; cbn [contains]; rewrite orb_true_iff.
  - split.
    + intros [H | H]; [|discriminate]. apply prefix_app in H as [suf Hs].
      now exists ""%string, suf.
    + intros (pre & suf & Hs). left. apply prefix_app. exists suf.
      destruct pre; [exact Hs | discriminate].
  - rewrite IH. split.
    + intros [H | (pre & suf & ->)].
      * apply prefix_app in H as [suf Hs]. now exists ""%string, suf.
      * now exists (String h pre), suf.
    + intros (pre & suf & Hs). destruct pre as [|c pre]; simpl in Hs.
      * left. apply prefix_app. now exists suf.
      * right. injection Hs as _ Hs. now exists pre, suf.
Qed.

Lemma entry_of_person_is_unclass (person : Person) :
  _isUnclass (entry_of_person person) = last_is_unclass person.
Proof.
  unfold entry_of_person, last_is_unclass, entry_of_walk. cbn [_isUnclass].
  destruct (last (sort_timeline (Timeline person))) eqn:Hlast; [reflexivity|].
  apply last_None in Hlast. rewrite Hlast. reflexivity.
Qed.

(** ** The COLA result *)




(** ** The scenarios of the design document *)

(** Snapshots of 1000 on 2024-03-01 and 1070 on 2024-05-01, both
    classified: the 6.5 percent event pairs the two dates, the change is 7
    percent and the raise counts as received. *)
Example scenario_raise_received :
  map (fun p => (beforeDate p, afterDate p)) (result_cola_pairs (main sample_data))
  = [ (Some "2024-03-01"%string, Some "2024-05-01"%string);
      (Some "2024-05-01"%string, None); (Some "2024-05-01"%string, None) ]
  /\ pct_change 1000 1070 == 7
  /\ (_colaReceived <$> result_index (main sample_data) !! "alice"%string) = Some true.
Proof. repeat split; vm_compute; reflexivity. Qed.

(** An employee with one unclassified snapshot is exempt whatever the
    pay. *)
Example scenario_unclassified_only (rate : Q) :
  cola_status (result_cola_pairs (main sample_data)) ∅
    (entry_of_person (mkPerson [sample_snapshot "2024-03-01" "Unclassified Staff" rate]))
  = set_cola true 0 [] false
      (entry_of_person (mkPerson [sample_snapshot "2024-03-01" "Unclassified Staff" rate])).
Proof. reflexivity. Qed.

(** ** The binary searches on a sorted list *)


Lemma sorted_nth (a : list Q) (i j : nat) :
  StronglySorted Qle a -> (i <= j < length a)%nat -> nth i a 0 <= nth j a 0.
Proof.
  intros Hs. revert i j. induction Hs as [|h t Hs IH Hall]; intros i j Hij; simpl in *; [lia|].
  destruct j as [|j].
  - assert (i = 0)%nat as -> by lia. apply Qle_refl.
  - destruct i as [|i].
    + rewrite List.Forall_forall in Hall. apply Hall, nth_In. lia.
    + apply IH. lia.
Qed.












(** ** The percentile *)







Lemma sort_values_sorted (values : list Q) : StronglySorted Qle (sort_values values).
Proof.
  unfold sort_values.
  assert (Hs : StronglySorted (holds Qle_bool) (isort Qle_bool values)).
  { apply isort_sorted.
    - intros x y. unfold holds. rewrite !Qle_bool_iff.
      destruct (Qlt_le_dec x y) as [Hlt | Hle].
      + left. now apply Qlt_le_weak.
      + now right.
    - intros x y z. unfold holds. rewrite !Qle_bool_iff. apply Qle_trans. }
  induction Hs as [|h t Hs IH Hall]; constructor; [exact IH|].
  eapply List.Forall_impl; [|exact Hall]. intros y. apply Qle_bool_iff.
Qed.




(** ** The peer percentile of an employee *)




Example carol_percentile :
  mean_rank (cohort (result_peer_buckets (main sample_data)) (Some "2024-05-01"%string)
               "Library||Analyst") 1000
  == 25.
Proof. reflexivity. Qed.



(** ** A raise of exactly the required percentage *)




(** The verdict does not hinge on exact arithmetic: let the pay after the
    raise and each of the three operations of the percentage change be off
    by a small relative error; for a required percentage between 0 and 100
    the change still meets the threshold. *)
Lemma pct_change_rounded (before_pay after_pay required d0 d1 d2 d3 : Q) :
  0 < before_pay -> 0 <= required <= 100 ->
  small_error d0 -> small_error d1 -> small_error d2 -> small_error d3 ->
  after_pay == before_pay * (1 + required / 100) * (1 + d0) ->
  required - COLA_TOLERANCE_PCT
  <= (((after_pay - before_pay) * (1 + d1)) / before_pay * (1 + d2)) * 100 * (1 + d3).
Proof.
  unfold small_error, COLA_TOLERANCE_PCT.
  intros Hpos Hreq H0 H1 H2 H3 Hafter.
  assert (Hne : ~ before_pay == 0).
  { intros Hz. rewrite Hz in Hpos. now apply Qlt_irrefl in Hpos. }
  set (c := required + (100 + required) * d0).
  assert (Heq : (((after_pay - before_pay) * (1 + d1)) / before_pay * (1 + d2))
                * 100 * (1 + d3)
                == c * ((1 + d1) * (1 + d2) * (1 + d3))).
  { rewrite Hafter. unfold c. field. exact Hne. }
  rewrite Heq.
  assert (Hc : required - (1 # 1000) <= c <= required + (1 # 1000)).
  { unfold c. split; nra. }
  set (p := (1 + d1) * (1 + d2) * (1 + d3)).
  assert (Hp12 : 1 - (3 # 1000000) <= (1 + d1) * (1 + d2) <= 1 + (3 # 1000000)).
  { split; nra. }
  assert (Hp : 1 - (1 # 100000) <= p <= 1 + (1 # 100000)).
  { unfold p. split; nra. }
  nra.
Qed.




(** ** The COLA bookkeeping of an index entry *)

Lemma cola_event_inv (labels : list string) (bound : Z) (pays : gmap string Q)
    (acc : ColaAcc) (event : ColaPair) :
  acc_inv labels bound acc -> In (pair_label event) labels ->
  acc_inv labels (bound + 1) (cola_event pays acc event).
Proof.
  intros (Hle & Hall & Hrec) Hlabel.
  assert (Hskip : acc_inv labels (bound + 1) acc).
  { split; [lia|]. now split. }
  unfold cola_event.
  destruct (beforeDate event) as [[|c r]|]; try exact Hskip.
  destruct (afterDate event) as [[|c' r']|]; try exact Hskip.
  destruct (String.eqb _ _); [exact Hskip|].
  destruct (Qle_bool (pay_at pays _) 0); [exact Hskip|].
  destruct (Qle_bool _ (pct_change _ _)); unfold acc_inv; cbn [cola_received cola_checked cola_missed].
  - split; [lia|]. split; [exact Hall | discriminate].
  - rewrite length_app, Nat2Z.inj_add. cbn [length].
    split; [lia|]. split.
    + apply Forall_app. split; [exact Hall|]. now repeat constructor.
    + intros Hr. specialize (Hrec Hr). lia.
Qed.

Lemma cola_fold_inv (labels : list string) (pays : gmap string Q)
    (cola_pairs : list ColaPair) (bound : Z) (acc : ColaAcc) :
  acc_inv labels bound acc ->
  Forall (fun p => In (pair_label p) labels) cola_pairs ->
  acc_inv labels (bound + Z.of_nat (length cola_pairs))
    (fold_left (cola_event pays) cola_pairs acc).
Proof.
  revert bound acc. induction cola_pairs as [|event rest IH]; intros bound acc Hacc Hall.
  - cbn [fold_left length]. now replace (bound + Z.of_nat 0)%Z with bound by lia.
  - apply Forall_cons_iff in Hall as [Hlabel Hall]. cbn [fold_left length].
    replace (bound + Z.of_nat (S (length rest)))%Z
      with ((bound + 1) + Z.of_nat (length rest))%Z by lia.
    apply IH; [|exact Hall]. now apply cola_event_inv.
Qed.

Lemma build_cola_pairs_labels (dates : list string) (events : list ColaEvent) :
  Forall (fun p => In (pair_label p) (map label events)) (build_cola_pairs dates events)
  /\ (length (build_cola_pairs dates events) <= length events)%nat.
Proof.
  unfold build_cola_pairs. destruct dates as [|d ds].
  - split; [constructor | simpl; lia].
  - split; [|now rewrite length_map].
    apply List.Forall_forall. intros p Hp. apply in_map_iff in Hp as (event & <- & Hin).
    unfold pair_of_event. destruct (fold_left _ _ _). cbn [pair_label].
    now apply in_map.
Qed.

Lemma cola_status_bookkeeping (dates : list string) (pays : gmap string Q)
    (idx : IndexEntry) :
  cola_bookkeeping (cola_status (build_cola_pairs dates COLA_EVENTS) pays idx).
Proof.
  unfold cola_status. destruct (_isUnclass idx).
  - unfold cola_bookkeeping. cbn. split; [lia|]. split; [constructor | discriminate].
  - destruct (build_cola_pairs_labels dates COLA_EVENTS) as [Hlabels Hlen].
    assert (Hinit : acc_inv (map label COLA_EVENTS) 0 init_cola).
    { split; [cbn; lia|]. split; [constructor | reflexivity]. }
    pose proof (cola_fold_inv _ pays _ 0 init_cola Hinit Hlabels) as (Hle & Hall & Hrec).
    fold (cola_eval pays (build_cola_pairs dates COLA_EVENTS)) in Hle, Hall, Hrec.
    cbn [length COLA_EVENTS] in Hlen.
    unfold cola_bookkeeping. cbn [set_cola _colaMissedLabels _colaChecked _colaReceived].
    split; [lia|]. now split.
Qed.

Lemma fold_left_map_Forall {X V : Type} (P : string -> V -> Prop)
    (upd : gmap string V -> X -> gmap string V) (l : list X) (m : gmap string V) :
  (forall m x, map_Forall P m -> map_Forall P (upd m x)) ->
  map_Forall P m -> map_Forall P (fold_left upd l m).
Proof.
  intros Hstep. revert m. induction l as [|x l IH]; intros m Hm; cbn [fold_left].
  - exact Hm.
  - now apply IH, Hstep.
Qed.

(** C10. In every entry of the emitted index the number of missed labels
    is at most the number of checked events, which is at most 3, the
    number of configured events; every missed label is the label of a
    configured event; and when the raise is not marked received the two
    numbers agree. *)
Theorem cola_bookkeeping_of_index (data : list (string * Person))
    (name : string) (e : IndexEntry) :
  result_index (main data) !! name = Some e ->
  cola_bookkeeping e /\ Z.of_nat (length COLA_EVENTS) = 3%Z.
Proof.
  intros He. split; [|reflexivity]. revert name e He.
  change (map_Forall (fun _ => cola_bookkeeping) (result_index (main data))).
  unfold main. cbn [result_index].
  apply fold_left_map_Forall.
  { intros m name Hm. unfold cola_person.
    destruct (m !! name) as [idx|]; [|exact Hm].
    apply map_Forall_insert_2; [|exact Hm]. apply cola_status_bookkeeping. }
  apply fold_left_map_Forall.
  { intros m item Hm k v Hk. rewrite set_peer_lookup in Hk.
    destruct (decide (k = fst item)) as [_|_]; [|now apply (Hm k)].
    destruct (m !! k) as [v0|] eqn:Hv0; [|discriminate].
    injection Hk as <-. exact (Hm k v0 Hv0). }
  unfold first_pass. rewrite first_pass_fold. cbn [index].
  apply fold_left_map_Forall.
  { intros m item Hm. apply map_Forall_insert_2; [|exact Hm].
    unfold cola_bookkeeping, entry_of_person, entry_of_walk. cbn.
    split; [lia|]. split; [constructor | discriminate]. }
  apply map_Forall_empty.
Qed.

Lemma cola_bookkeeping_of_index_witness :
  exists e, result_index (main sample_data) !! "carol"%string = Some e
    /\ _colaMissedLabels e = ["6.5% COLA"%string] /\ _colaChecked e = 1%Z
    /\ cola_bookkeeping e.
Proof.
  destruct (result_index (main sample_data) !! "carol"%string) as [e|] eqn:He;
    [|vm_compute in He; discriminate].
  exists e. split; [reflexivity|].
  pose proof (cola_bookkeeping_of_index sample_data "carol" e He) as [Hbook _].
  vm_compute in He. injection He as <-.
  split; [reflexivity|]. split; [reflexivity|]. exact Hbook.
Defined.

(** ** Exclusion tracking *)










(** ** The fused pass and the separate passes *)

Lemma load_rows_flat (data : list (string * Person)) :
  load_rows data
  = flat_map row_of (flat_map (fun item => sort_timeline (Timeline (snd item))) data).
Proof.
  unfold load_rows, rows_of_timeline.
  induction data as [|item data IH]; cbn [flat_map]; [reflexivity|].
  now rewrite flat_map_app, IH.
Qed.

Lemma peer_key_nonempty (job : Job) : exists c r, peer_key_of job = String c r.
Proof.
  unfold peer_key_of.
  destruct (str_or (job_text job "Job Orgn") "Unknown") as [|c r] eqn:Horg.
  - unfold str_or in Horg. now destruct (job_text job "Job Orgn") as [[|]|].
  - now exists c, (r +:+ "||" +:+ str_or (job_text job "Job Title") "Unknown").
Qed.

Lemma walk_global_rows (g : Globals) (snap : Snapshot) :
  stats_map (walk_global g snap) = fold_left stats_step (row_of snap) (stats_map g)
  /\ peer_buckets (walk_global g snap) = fold_left peers_step (row_of snap) (peer_buckets g).
Proof.
  unfold walk_global, walk_snapshot, row_of.
  destruct (track_exclusion init_walk _ _) as [[? ?] ?].
  destruct (Date snap) as [[|c r]|]; cbn; try (now split).
  split; [reflexivity|].
  unfold primary_key. destruct (default [] (Jobs snap)) as [|job rest]; [reflexivity|].
  case_bool_decide; [reflexivity|].
  now destruct (peer_key_nonempty job) as (c' & r' & ->).
Qed.

Lemma walk_global_fold_rows (snaps : list Snapshot) (g : Globals) :
  stats_map (fold_left walk_global snaps g)
  = fold_left stats_step (flat_map row_of snaps) (stats_map g)
  /\ peer_buckets (fold_left walk_global snaps g)
     = fold_left peers_step (flat_map row_of snaps) (peer_buckets g).
Proof.
  revert g. induction snaps as [|snap rest IH]; intros g; cbn [fold_left flat_map].
  - now split.
  - destruct (IH (walk_global g snap)) as [Hs Hp].
    destruct (walk_global_rows g snap) as [Hs1 Hp1].
    rewrite Hs, Hp, Hs1, Hp1, !fold_left_app. now split.
Qed.

Lemma current_stats_and_peers_split (rows : list Row) :
  current_stats_and_peers rows = (current_stats_only rows, cohorts_only rows).
Proof.
  unfold current_stats_and_peers, current_stats_only, cohorts_only.
  generalize (∅ : gmap string StatsRow) (∅ : gmap string (gmap string (list Q))).
  induction rows as [|[[[date is_unclass] snap_pay] peer_key] rows IH];
    intros stats peers; cbn [fold_left]; [reflexivity|].
  cbn [fst snd]. apply IH.
Qed.


Lemma fused_pass_members (data : list (string * Person)) :
  stats_map (globals (first_pass data)) = current_stats_only (load_rows data)
  /\ peer_buckets (globals (first_pass data)) = cohorts_only (load_rows data).
Proof.
  unfold first_pass. rewrite first_pass_fold. cbn [globals].
  destruct (walk_global_fold_rows
              (flat_map (fun item => sort_timeline (Timeline (snd item))) data)
              init_globals) as [Hs Hp].
  rewrite Hs, Hp, <- load_rows_flat. now split.
Qed.


Example sample_stats_and_counts :
  result_stats_map (main sample_data) !! "2024-05-01"%string
  = Some (mkStatsRow "2024-05-01" 4 1 (0 + 1070 * (100 / 100) + 2000 * (100 / 100)
                                         + 1000 * (100 / 100) + 1000 * (100 / 100)
                                         + 2130 * (100 / 100))
            (0 + 1070 * (100 / 100) + 1000 * (100 / 100) + 1000 * (100 / 100)
             + 2130 * (100 / 100))
            (0 + 2000 * (100 / 100)))
  /\ peer_bucket_counts (cohorts_only (load_rows sample_data)) !! "2024-05-01"%string
     = Some (<["Library||Curator"%string := 1%nat]> {["Library||Analyst"%string := 4%nat]}).
Proof. split; vm_compute; reflexivity. Qed.

(** ** The members of a cohort *)





(** ** The loaded document after the run *)





(** * Further properties *)

(** ** What [parse_float] accepts *)

Lemma digit_not_dot (c : ascii) : is_digit c = true -> is_dot c = false.
Proof.
  unfold is_digit, is_dot. rewrite andb_true_iff, !N.leb_le, N.eqb_neq. lia.
Qed.

Lemma digit_not_minus (c : ascii) : is_digit c = true -> is_minus c = false.
Proof.
  unfold is_digit, is_minus. rewrite andb_true_iff, !N.leb_le, N.eqb_neq. lia.
Qed.

Lemma split_dot_spec (l : list ascii) :
  l = fst (split_dot l) ++ match snd (split_dot l) with
                           | Some f => "."%char :: f
                           | None => []
                           end
  /\ Forall (fun c => is_dot c = false) (fst (split_dot l)).
Proof.
  induction l as [|c r [IHeq IHall]]; cbn [split_dot].
  - split; [reflexivity | constructor].
  - destruct (is_dot c) eqn:Hc.
    + apply is_dot_spec in Hc as ->. split; [reflexivity | constructor].
    + destruct (split_dot r) as [a b]. cbn [fst snd] in *. split.
      * now rewrite IHeq at 1.
      * now constructor.
Qed.

Lemma split_dot_app (ip : list ascii) (fp : option (list ascii)) :
  Forall (fun c => is_dot c = false) ip ->
  split_dot (ip ++ match fp with Some f => "."%char :: f | None => [] end) = (ip, fp).
Proof.
  induction 1 as [|c r Hc Hall IH]; cbn [app split_dot].
  - destruct fp as [f|]; reflexivity.
  - now rewrite Hc, IH.
Qed.

Lemma digits_value_digits (l : list ascii) (acc v : Z) :
  digits_value acc l = Some v -> Forall (fun c => is_digit c = true) l.
Proof.
  revert acc. induction l as [|c r IH]; intros acc Hv; [constructor|].
  cbn [digits_value] in Hv. destruct (is_digit c) eqn:Hc; [|discriminate].
  constructor; [exact Hc | now apply IH in Hv].
Qed.

Lemma digits_value_total (l : list ascii) (acc : Z) :
  Forall (fun c => is_digit c = true) l -> (0 <= acc)%Z ->
  exists v, digits_value acc l = Some v /\ (0 <= v)%Z.
Proof.
  intros Hall. revert acc. induction Hall as [|c r Hc Hall IH]; intros acc Hacc.
  - now exists acc.
  - cbn [digits_value]. rewrite Hc. apply IH.
    unfold is_digit in Hc. apply andb_true_iff in Hc as [Hlo _].
    apply N.leb_le in Hlo. lia.
Qed.

Lemma float_of_cleaned_shape (l : list ascii) :
  is_Some (float_of_cleaned l) <-> decimal_shape l.
Proof.
  split.
  - intros [q Hq]. unfold float_of_cleaned in Hq.
    set (nb := match l with
               | c :: r => if is_minus c then (true, r) else (false, l)
               | [] => (false, l)
               end) in Hq.
    assert (Hl : l = (if fst nb then ["-"%char] else []) ++ snd nb).
    { unfold nb. destruct l as [|c r]; [reflexivity|].
      destruct (is_minus c) eqn:Hc; [|reflexivity].
      now apply is_minus_spec in Hc as ->. }
    destruct nb as [neg body]. cbn [fst snd] in Hl.
    destruct (split_dot_spec body) as [Hbody _].
    destruct (split_dot body) as [ip fp]. cbn [fst snd] in Hbody.
    destruct (length ip + length (default [] fp) =? 0)%nat eqn:Hlen; [discriminate|].
    destruct (digits_value 0 ip) as [i|] eqn:Hi; [|discriminate].
    destruct (digits_value 0 (default [] fp)) as [f|] eqn:Hf; [|discriminate].
    exists neg, ip, fp. split; [now rewrite Hl, Hbody|].
    split; [now apply digits_value_digits in Hi|].
    split; [now apply digits_value_digits in Hf|].
    apply Nat.eqb_neq in Hlen. lia.
  - intros (neg & ip & fp & -> & Hip & Hfp & Hlen).
    assert (Hnodot : Forall (fun c => is_dot c = false) ip).
    { eapply List.Forall_impl; [|exact Hip]. apply digit_not_dot. }
    destruct (digits_value_total ip 0 Hip) as (i & Hi & _); [lia|].
    destruct (digits_value_total (default [] fp) 0 Hfp) as (f & Hf & _); [lia|].
    assert (Hbody : float_of_cleaned
                      ((if neg then ["-"%char] else []) ++ ip
                       ++ match fp with Some f => "."%char :: f | None => [] end)
                    = let den := (10 ^ Z.of_nat (length (default [] fp)))%Z in
                      let num := (i * den + f)%Z in
                      Some ((if neg then (- num)%Z else num) # Z.to_pos den)).
    { unfold float_of_cleaned. destruct neg; cbn [app].
      - change (is_minus "-") with true. cbv iota.
        rewrite (split_dot_app ip fp Hnodot).
        replace (length ip + length (default [] fp) =? 0)%nat with false
          by (symmetry; apply Nat.eqb_neq; lia).
        now rewrite Hi, Hf.
      - assert (Hfirst : match ip ++ match fp with Some f => "."%char :: f | None => [] end with
                         | c :: r => is_minus c = false
                         | [] => False
                         end).
        { destruct ip as [|c r].
          - destruct fp as [[|c f']|]; cbn in *; try lia. reflexivity.
          - cbn. apply Forall_cons_iff in Hip as [Hc _]. now apply digit_not_minus. }
        destruct (ip ++ match fp with Some f => "."%char :: f | None => [] end)
          as [|c r] eqn:Hl; [destruct Hfirst|].
        rewrite Hfirst, <- Hl, (split_dot_app ip fp Hnodot).
        replace (length ip + length (default [] fp) =? 0)%nat with false
          by (symmetry; apply Nat.eqb_neq; lia).
        now rewrite Hi, Hf. }
    rewrite Hbody. eexists. reflexivity.
Qed.

(** X1. A text is read as a number exactly when what is left of it after the
    cleaning is an optional leading minus, digits, optionally one point and
    more digits, with at least one digit: a minus anywhere else, a second
    point or no digit at all make the value absent.  A number is read as
    itself. *)
Theorem parse_float_accepts (s : string) (q : Q) :
  (is_Some (parse_float (Some (JStr s))) <-> decimal_shape (clean s))
  /\ parse_float (Some (JNum q)) = Some q
  /\ parse_float None = None /\ parse_float (Some JNull) = None.
Proof.
  split; [|repeat split].
  cbn [parse_float]. rewrite <- float_of_cleaned_shape.
  destruct (clean s) as [|c r] eqn:Hc; [|reflexivity].
  split; intros [x Hx]; discriminate.
Qed.

Example parse_float_formatted :
  parse_float (Some (JStr "$ 1,234.50")) = Some (123450 # 100)
  /\ parse_float (Some (JStr "(1,234)")) = Some (1234 # 1)
  /\ parse_float (Some (JStr "10-20")) = None
  /\ parse_float (Some (JStr "3.5.1")) = None
  /\ parse_float (Some (JStr "n/a")) = None
  /\ parse_float (Some (JStr "-")) = None.
Proof. repeat split. Qed.

(** ** The sign of a snapshot's pay *)

Lemma add_job_pay_nonneg (total : Q) (job : Job) :
  0 <= total -> 0 <= job_pct job -> 0 <= add_job_pay total job.
Proof.
  intros Htotal Hpct. unfold add_job_pay, job_pct in *.
  destruct (calc_job_rate_and_missing job) as [[rate pct'] mis]. cbn [fst snd] in Hpct.
  destruct (Qlt_bool 0 rate) eqn:Hrate; [|exact Htotal].
  apply Qlt_bool_iff in Hrate.
  assert (0 <= rate * (pct' / 100)).
  { apply Qmult_le_0_compat; [now apply Qlt_le_weak|].
    apply Qle_shift_div_l; [reflexivity | lra]. }
  lra.
Qed.

(** X2. The pay of a snapshot is not negative as long as no job of it has a
    negative appointment percent; a negative percent on a job with a
    positive rate does give a negative pay. *)
Theorem snapshot_pay_nonneg (snapshot : Snapshot) :
  Forall (fun job => 0 <= job_pct job) (default [] (Jobs snapshot)) ->
  0 <= calculate_snapshot_pay snapshot.
Proof.
  unfold calculate_snapshot_pay.
  destruct (Jobs snapshot) as [[|job jobs]|]; cbn [default from_option id];
    intros Hall; try apply Qle_refl.
  assert (Hfold : forall js total,
             Forall (fun job => 0 <= job_pct job) js -> 0 <= total ->
             0 <= fold_left add_job_pay js total).
  { induction js as [|j js IH]; intros total Hjs Htotal; cbn [fold_left]; [exact Htotal|].
    apply Forall_cons_iff in Hjs as [Hj Hjs].
    apply IH; [exact Hjs | now apply add_job_pay_nonneg]. }
  apply Hfold; [exact Hall | apply Qle_refl].
Qed.

Lemma snapshot_pay_nonneg_witness :
  0 <= calculate_snapshot_pay
         (mkSnapshot (Some "2024-03-01") None (Some [monthly_job; half_time_job]))
  /\ calculate_snapshot_pay negative_percent_snapshot == -500.
Proof.
  split; [|reflexivity].
  apply snapshot_pay_nonneg. cbn [default from_option id Jobs].
  repeat constructor; vm_compute; discriminate.
Defined.

(** ** [median] *)

Lemma filter_length_perm (f : Q -> bool) (l l' : list Q) :
  Permutation l l' -> length (List.filter f l) = length (List.filter f l').
Proof.
  induction 1 as [|x l l' _ IH|x y l|l l' l'' _ IH1 _ IH2]; cbn [List.filter].
  - reflexivity.
  - destruct (f x); cbn [length]; lia.
  - destruct (f x), (f y); reflexivity.
  - lia.
Qed.

Lemma filter_length_prefix (f : Q -> bool) (l : list Q) (k : nat) :
  (k <= length l)%nat -> (forall i, (i < k)%nat -> f (nth i l 0) = true) ->
  (k <= length (List.filter f l))%nat.
Proof.
  revert k. induction l as [|h t IH]; intros k Hk Hall; cbn [length] in *; [lia|].
  destruct k as [|k]; [lia|]. cbn [List.filter].
  assert (H0 : f h = true) by (apply (Hall 0%nat); lia).
  rewrite H0. cbn [length].
  apply le_n_S, IH; [lia|]. intros i Hi. apply (Hall (S i)). lia.
Qed.

Lemma filter_length_suffix (f : Q -> bool) (l : list Q) (k : nat) :
  (forall i, (k <= i < length l)%nat -> f (nth i l 0) = true) ->
  (length l - k <= length (List.filter f l))%nat.
Proof.
  revert k. induction l as [|h t IH]; intros k Hall; cbn [length] in *; [lia|].
  destruct k as [|k].
  - cbn [List.filter].
    assert (H0 : f h = true) by (apply (Hall 0%nat); lia).
    rewrite H0. cbn [length].
    specialize (IH 0%nat). rewrite Nat.sub_0_r in *.
    apply le_n_S, IH. intros i Hi. apply (Hall (S i)). lia.
  - cbn [List.filter]. specialize (IH k).
    assert (length t - k <= length (List.filter f t))%nat.
    { apply IH. intros i Hi. apply (Hall (S i)). lia. }
    destruct (f h); cbn [length]; lia.
Qed.

Lemma median_index (n : nat) :
  Nat.shiftr n 1 = (n / 2)%nat /\ Nat.land n 1 = (n mod 2)%nat.
Proof.
  split.
  - now rewrite Nat.shiftr_div_pow2.
  - change 1%nat with (Nat.ones 1) at 1. now rewrite Nat.land_ones.
Qed.

(** On a sorted list the middle value has half of the list on either
    side. *)
Lemma median_sorted_central (vals : list Q) :
  StronglySorted Qle vals -> vals <> [] ->
  (length vals <= 2 * values_at_most (_median_sorted vals) vals)%nat
  /\ (length vals <= 2 * values_at_least (_median_sorted vals) vals)%nat.
Proof.
  intros Hs Hne. unfold _median_sorted, values_at_most, values_at_least.
  set (n := length vals).
  assert (Hn : (0 < n)%nat) by (unfold n; destruct vals; [congruence | cbn; lia]).
  destruct (median_index n) as [-> ->].
  replace (n =? 0)%nat with false by (symmetry; apply Nat.eqb_neq; lia).
  pose proof (Nat.div_mod_eq n 2) as Hdiv.
  pose proof (Nat.mod_upper_bound n 2) as Hmod.
  destruct (n mod 2 =? 0)%nat eqn:Hpar; cbn [negb].
  - apply Nat.eqb_eq in Hpar.
    set (m := (nth (n / 2 - 1) vals 0 + nth (n / 2) vals 0) * (1 # 2)).
    assert (Hmid : nth (n / 2 - 1) vals 0 <= nth (n / 2) vals 0).
    { apply sorted_nth; [exact Hs | fold n; lia]. }
    assert (Hlo : nth (n / 2 - 1) vals 0 <= m) by (unfold m; lra).
    assert (Hhi : m <= nth (n / 2) vals 0) by (unfold m; lra).
    split.
    + assert (n / 2 <= length (List.filter (fun v => Qle_bool v m) vals))%nat; [|lia].
      apply filter_length_prefix; [fold n; lia|].
      intros i Hi. apply Qle_bool_iff.
      apply Qle_trans with (nth (n / 2 - 1) vals 0); [|exact Hlo].
      apply sorted_nth; [exact Hs | fold n; lia].
    + assert (n - n / 2 <= length (List.filter (fun v => Qle_bool m v) vals))%nat; [|lia].
      apply filter_length_suffix. fold n.
      intros i Hi. apply Qle_bool_iff.
      apply Qle_trans with (nth (n / 2) vals 0); [exact Hhi|].
      apply sorted_nth; [exact Hs | fold n; lia].
  - apply Nat.eqb_neq in Hpar. split.
    + assert (S (n / 2) <= length (List.filter (fun v => Qle_bool v (nth (n / 2) vals 0%Q)) vals))%nat;
        [|lia].
      apply filter_length_prefix; [fold n; lia|].
      intros i Hi. apply Qle_bool_iff. apply sorted_nth; [exact Hs | fold n; lia].
    + assert (n - n / 2 <= length (List.filter (fun v => Qle_bool (nth (n / 2) vals 0%Q) v) vals))%nat;
        [|lia].
      apply filter_length_suffix. fold n.
      intros i Hi. apply Qle_bool_iff. apply sorted_nth; [exact Hs | fold n; lia].
Qed.

(** The shortcuts of [median] for one and two values agree with the
    middle of the sorted list. *)
Lemma median_is_middle (values : list Q) (presorted : bool) :
  median values presorted
  == _median_sorted (if presorted then values else sort_values values).
Proof.
  unfold median.
  destruct values as [|v0 [|v1 [|v2 rest]]]; cbn [length Nat.eqb]; try reflexivity.
  - now destruct presorted.
  - now destruct presorted.
  - destruct presorted; [unfold _median_sorted; cbn; field|].
    unfold sort_values, isort. cbn [fold_right insert_sorted].
    destruct (Qle_bool v0 v1); unfold _median_sorted; cbn; field.
Qed.

Lemma count_Qeq (m m' : Q) (values : list Q) :
  m == m' ->
  values_at_most m values = values_at_most m' values
  /\ values_at_least m values = values_at_least m' values.
Proof.
  intros Hm. unfold values_at_most, values_at_least. split; f_equal; apply List.filter_ext;
    intros v; apply eq_true_iff_eq; rewrite !Qle_bool_iff; now rewrite Hm.
Qed.

(** X3. At least half of the values are at most the median and at least half
    are at least the median, whatever the order the values come in. *)
Theorem median_central (values : list Q) :
  values <> [] ->
  (length values <= 2 * values_at_most (median values false) values)%nat
  /\ (length values <= 2 * values_at_least (median values false) values)%nat.
Proof.
  intros Hne.
  destruct (count_Qeq _ _ values (median_is_middle values false)) as [-> ->].
  cbn match.
  assert (Hperm : Permutation (sort_values values) values) by apply isort_perm.
  assert (Hne' : sort_values values <> []).
  { intros Hnil. rewrite Hnil in Hperm. apply Permutation_nil in Hperm. congruence. }
  destruct (median_sorted_central _ (sort_values_sorted values) Hne') as [Hle Hge].
  unfold values_at_most, values_at_least in *.
  rewrite (filter_length_perm _ _ _ Hperm) in Hle.
  rewrite (filter_length_perm _ _ _ Hperm) in Hge.
  rewrite (Permutation_length Hperm) in Hle, Hge. now split.
Qed.

Lemma median_central_witness :
  median unsorted_pays false == 25
  /\ (4 <= 2 * values_at_most (median unsorted_pays false) unsorted_pays)%nat
  /\ (4 <= 2 * values_at_least (median unsorted_pays false) unsorted_pays)%nat.
Proof.
  split; [reflexivity|].
  apply (median_central unsorted_pays). discriminate.
Defined.

Example median_small : median [5] false = 5 /\ median [] false = 0 /\ median [] true = 0.
Proof. repeat split. Qed.

(** ** The peer medians *)

Lemma lookup2_peers_add (d k : string) (x : Q)
    (peer_buckets : gmap string (gmap string (list Q))) (date key : string) :
  lookup2 (peers_add d k x peer_buckets) date key
  = if bool_decide (date = d /\ key = k)
    then Some (default [] (lookup2 peer_buckets d k) ++ [x])
    else lookup2 peer_buckets date key.
Proof.
  unfold lookup2, peers_add.
  destruct (decide (date = d)) as [->|Hd].
  - rewrite lookup_insert_eq.
    destruct (decide (key = k)) as [->|Hk].
    + rewrite lookup_insert_eq, bool_decide_eq_true_2 by done.
      now destruct (peer_buckets !! d).
    + rewrite lookup_insert_ne, bool_decide_eq_false_2 by (try congruence; tauto).
      destruct (peer_buckets !! d); [reflexivity | apply lookup_empty].
  - rewrite lookup_insert_ne, bool_decide_eq_false_2 by (try congruence; tauto).
    reflexivity.
Qed.

Lemma peers_step_nonempty (rows : list Row)
    (peer_buckets : gmap string (gmap string (list Q))) :
  (forall date key values, lookup2 peer_buckets date key = Some values -> values <> []) ->
  forall date key values,
    lookup2 (fold_left peers_step rows peer_buckets) date key = Some values -> values <> [].
Proof.
  revert peer_buckets.
  induction rows as [|[[[d u] v] k] rows IH]; intros peer_buckets Hinv; cbn [fold_left];
    [exact Hinv|].
  apply IH. cbn [peers_step]. destruct k as [[|c r]|]; try exact Hinv.
  intros date key values. rewrite lookup2_peers_add.
  destruct (bool_decide _); [|apply Hinv].
  intros [= <-]. now destruct (default [] _).
Qed.

(** X4. The map of the peer medians has an entry for exactly the cohorts the
    first pass has filled; no cohort is empty; and the entry, computed on
    the list sorted in place with [presorted=True], is the median of the
    pays in the order the pass appended them. *)
Theorem peer_median_of_cohort (data : list (string * Person)) (date key : string) :
  lookup2 (peer_median_map (result_peer_buckets (main data))) date key
  = (fun values => median (sort_values values) true)
      <$> lookup2 (peer_buckets (globals (first_pass data))) date key
  /\ forall values,
       lookup2 (peer_buckets (globals (first_pass data))) date key = Some values ->
       values <> []
       /\ median (sort_values values) true == median values false.
Proof.
  split.
  - change (result_peer_buckets (main data))
      with (sort_buckets (peer_buckets (globals (first_pass data)))).
    unfold lookup2, peer_median_map, sort_buckets. rewrite !lookup_fmap.
    destruct (peer_buckets (globals (first_pass data)) !! date) as [bucket_map|];
      [|reflexivity].
    cbn. rewrite !lookup_fmap. now destruct (bucket_map !! key).
  - destruct (fused_pass_members data) as [_ ->].
    intros values Hv. split.
    + revert Hv. unfold cohorts_only.
      change (fold_left _ (load_rows data) ∅) with (fold_left peers_step (load_rows data) ∅).
      apply peers_step_nonempty. intros d k vs. unfold lookup2.
      rewrite lookup_empty. discriminate.
    + rewrite (median_is_middle (sort_values values) true),
        (median_is_middle values false). reflexivity.
Qed.

Lemma peer_median_of_cohort_witness :
  lookup2 (peer_buckets (globals (first_pass sample_data)))
    "2024-05-01" "Library||Analyst" = Some analyst_pays
  /\ analyst_pays <> []
  /\ median (sort_values analyst_pays) true == median analyst_pays false.
Proof.
  split; [vm_compute; reflexivity|].
  destruct (peer_median_of_cohort sample_data "2024-05-01" "Library||Analyst") as [_ H].
  apply H. vm_compute. reflexivity.
Defined.

Example peer_median_sample :
  exists m,
    lookup2 (peer_median_map (result_peer_buckets (main sample_data)))
      "2024-05-01" "Library||Analyst" = Some m
    /\ m == 1035.
Proof. eexists. split; [vm_compute; reflexivity | reflexivity]. Qed.

(** ** [bucket_for_name] *)








Example bucket_for_name_samples :
  bucket_for_name "Zed, Ann" = Some "z" /\ bucket_for_name "  o'Neil" = Some "o"
  /\ bucket_for_name "3M" = Some "_" /\ bucket_for_name "" = Some "_"
  /\ bucket_for_name " " = None.
Proof. repeat split. Qed.

(** ** The bucket files *)






Example people_buckets_sample :
  exists buckets,
    people_buckets sample_data = Some buckets
    /\ (file_wasExcluded <$> lookup2 buckets "b" "bob") = Some true
    /\ (file_exclusionDate <$> lookup2 buckets "b" "bob") = Some (Some "2024-05-01")
    /\ (file_wasExcluded <$> lookup2 buckets "a" "alice") = Some false
    /\ lookup2 buckets "a" "bob" = None.
Proof. eexists. split; [reflexivity|]. repeat split; vm_compute; reflexivity. Qed.

(** ** The statistics of a date *)

Lemma stats_step_lookup (m : gmap string StatsRow) (row : Row) (d : string) :
  stats_step m row !! d
  = if String.eqb (row_date_of row) d
    then Some (add_row (default (new_stats_row d) (m !! d)) row)
    else m !! d.
Proof.
  destruct row as [[[date u] p] k]. cbn. unfold stats_add.
  destruct (String.eqb_spec date d) as [->|Hne].
  - now rewrite lookup_insert_eq.
  - now rewrite lookup_insert_ne.
Qed.

Lemma stats_fold_lookup (rows : list Row) (m : gmap string StatsRow) (d : string) :
  fold_left stats_step rows m !! d
  = match rows_of_date d rows with
    | [] => m !! d
    | rs => Some (fold_left add_row rs (default (new_stats_row d) (m !! d)))
    end.
Proof.
  revert m. induction rows as [|row rows IH]; intros m; cbn [fold_left]; [reflexivity|].
  rewrite IH, stats_step_lookup. unfold rows_of_date. cbn [List.filter].
  destruct (String.eqb (row_date_of row) d); [|reflexivity].
  now destruct (List.filter _ rows).
Qed.

Lemma add_rows_fields (rs : list Row) (r : StatsRow) :
  row_date (fold_left add_row rs r) = row_date r
  /\ classified (fold_left add_row rs r)
     = (classified r + Z.of_nat (length (class_rows rs)))%Z
  /\ unclassified (fold_left add_row rs r)
     = (unclassified r + Z.of_nat (length (unclass_rows rs)))%Z
  /\ payroll (fold_left add_row rs r) == payroll r + pay_sum rs
  /\ payrollClassified (fold_left add_row rs r)
     == payrollClassified r + pay_sum (class_rows rs)
  /\ payrollUnclassified (fold_left add_row rs r)
     == payrollUnclassified r + pay_sum (unclass_rows rs).
Proof.
  revert r. induction rs as [|[[[date u] p] k] rs IH]; intros r; cbn [fold_left].
  - unfold class_rows, unclass_rows, pay_sum. cbn.
    repeat split; first [reflexivity | lia | ring].
  - destruct (IH (add_row r (date, u, p, k))) as (H1 & H2 & H3 & H4 & H5 & H6).
    rewrite H1, H2, H3, H4, H5, H6.
    unfold add_row, add_to_row, class_rows, unclass_rows, pay_sum, row_unclass, row_pay.
    cbn [fst snd List.filter]. destruct u; cbn [negb map Qsum fold_right length
      row_date classified unclassified payroll payrollClassified payrollUnclassified];
      repeat split;
      first [reflexivity | lia | unfold Qsum; cbn [fst snd fold_right]; ring].
Qed.

Lemma main_stats_fold (data : list (string * Person)) :
  result_stats_map (main data) = fold_left stats_step (load_rows data) ∅.
Proof.
  change (result_stats_map (main data)) with (stats_map (globals (first_pass data))).
  now destruct (fused_pass_members data) as [-> _].
Qed.



Example stats_row_sample :
  exists r, result_stats_map (main sample_data) !! "2024-05-01" = Some r
    /\ classified r = 4%Z /\ unclassified r = 1%Z
    /\ payroll r == 7200 /\ payrollUnclassified r == 2000.
Proof. eexists. split; [vm_compute; reflexivity|]. repeat split. Qed.

(** ** [snapshotDates] and [historyStats] *)

Lemma str_le_antisym (a b : string) : str_le a b -> str_le b a -> a = b.
Proof.
  intros Hab Hba. apply str_le_cases in Hab as [Hlt| ->]; [|reflexivity].
  exfalso. apply (str_lt_not_le a b); [|exact Hba].
  unfold str_lt, String.ltb. now rewrite Hlt.
Qed.


Section SortedByKey.
Context {A : Type} (key : A -> string).

Lemma sorted_by_key_unique (l1 l2 : list A) :
  StronglySorted (fun a b => str_le (key a) (key b)) l1 ->
  StronglySorted (fun a b => str_le (key a) (key b)) l2 ->
  Permutation l1 l2 -> List.NoDup (map key l1) -> l1 = l2.
Proof.
  revert l2. induction l1 as [|a t IH]; intros l2 Hs1 Hs2 Hp Hnd.
  - apply Permutation_nil in Hp. now subst.
  - destruct l2 as [|b t'];
      [apply Permutation_sym, Permutation_nil in Hp; discriminate|].
    apply StronglySorted_inv in Hs1 as [Hs1 Ha].
    apply StronglySorted_inv in Hs2 as [Hs2 Hb].
    cbn [map] in Hnd. apply List.NoDup_cons_iff in Hnd as [Hnotin Hnd].
    assert (Hab : a = b).
    { assert (Hbin : In b (a :: t))
        by (eapply Permutation_in; [symmetry; exact Hp | now left]).
      assert (Hain : In a (b :: t'))
        by (eapply Permutation_in; [exact Hp | now left]).
      destruct Hbin as [Heq|Hbin]; [exact Heq|].
      destruct Hain as [Heq|Hain]; [now symmetry|].
      rewrite List.Forall_forall in Ha, Hb.
      assert (Hk : key a = key b)
        by (apply str_le_antisym; [apply Ha | apply Hb]; assumption).
      exfalso. apply Hnotin. rewrite Hk. now apply in_map. }
    subst b. f_equal. apply IH; try assumption.
    now apply Permutation_cons_inv in Hp.
Qed.

Lemma sorted_keys (l : list A) :
  StronglySorted (fun a b => str_le (key a) (key b)) l ->
  StronglySorted str_le (map key l).
Proof.
  induction 1 as [|a t Hs IH Ha]; cbn [map]; constructor; [exact IH|].
  rewrite List.Forall_forall in *. intros k Hk.
  apply in_map_iff in Hk as (b & <- & Hb). now apply Ha.
Qed.
End SortedByKey.


Lemma in_sorted_dates (dates : gset string) (d : string) :
  In d (sorted_dates dates) <-> d ∈ dates.
Proof.
  unfold sorted_dates. rewrite <- elem_of_elements, list_elem_of_In.
  split; apply Permutation_in; [|symmetry]; apply isort_perm.
Qed.

Lemma sorted_dates_distinct (dates : gset string) : List.NoDup (sorted_dates dates).
Proof.
  apply (Permutation_NoDup (l := elements dates)).
  - symmetry. apply isort_perm.
  - apply NoDup_ListNoDup, NoDup_elements.
Qed.

Lemma walk_global_dates (g : Globals) (snap : Snapshot) :
  snapshot_dates (walk_global g snap)
  = match Date snap with
    | Some (String _ _ as d) => {[d]} ∪ snapshot_dates g
    | _ => snapshot_dates g
    end
  /\ dom (stats_map (walk_global g snap))
     = match Date snap with
       | Some (String _ _ as d) => {[d]} ∪ dom (stats_map g)
       | _ => dom (stats_map g)
       end.
Proof.
  unfold walk_global, walk_snapshot.
  destruct (track_exclusion init_walk _ _) as [[? ?] ?].
  destruct (Date snap) as [[|c r]|]; cbn; try (now split).
  split; [reflexivity|]. unfold stats_add. apply dom_insert_L.
Qed.

Lemma walk_global_dates_fold (snaps : list Snapshot) (g : Globals) :
  dom (stats_map g) = snapshot_dates g ->
  dom (stats_map (fold_left walk_global snaps g))
  = snapshot_dates (fold_left walk_global snaps g)
  /\ forall d,
       d ∈ snapshot_dates (fold_left walk_global snaps g)
       <-> d ∈ snapshot_dates g
           \/ d <> "" /\ exists snap, In snap snaps /\ Date snap = Some d.
Proof.
  revert g. induction snaps as [|snap rest IH]; intros g Hdom; cbn [fold_left].
  - split; [exact Hdom|]. intros d. split; [now left|].
    intros [Hd|(_ & snap & [] & _)]. exact Hd.
  - destruct (walk_global_dates g snap) as [Hdates Hstats].
    destruct (IH (walk_global g snap)) as [Hdom' Hmem].
    { rewrite Hdates, Hstats, Hdom. reflexivity. }
    split; [exact Hdom'|]. intros d. rewrite Hmem, Hdates. split.
    + intros [Hd|(Hne & s & Hin & Hs)].
      * destruct (Date snap) as [[|c r]|] eqn:Hdate; try (now left).
        apply elem_of_union in Hd as [Hd|Hd]; [|now left].
        apply elem_of_singleton in Hd as ->. right. split; [discriminate|].
        exists snap. split; [now left | exact Hdate].
      * right. split; [exact Hne|]. exists s. split; [now right | exact Hs].
    + intros [Hd|(Hne & s & [<-|Hin] & Hs)].
      * left. destruct (Date snap) as [[|c r]|]; try exact Hd.
        apply elem_of_union. now right.
      * left. rewrite Hs. destruct d as [|c r]; [congruence|].
        apply elem_of_union. left. now apply elem_of_singleton.
      * right. split; [exact Hne|]. now exists s.
Qed.

Lemma first_pass_dates (data : list (string * Person)) :
  dom (stats_map (globals (first_pass data))) = snapshot_dates (globals (first_pass data))
  /\ forall d,
       d ∈ snapshot_dates (globals (first_pass data)) <-> d <> "" /\ date_observed data d.
Proof.
  unfold first_pass. rewrite first_pass_fold. cbn [globals].
  destruct (walk_global_dates_fold
              (flat_map (fun item => sort_timeline (Timeline (snd item))) data)
              init_globals) as [Hdom Hmem]; [reflexivity|].
  split; [exact Hdom|]. intros d. rewrite Hmem. unfold date_observed. split.
  - intros [Hd|(Hne & snap & Hin & Hs)]; [now apply elem_of_empty in Hd|].
    split; [exact Hne|].
    apply in_flat_map in Hin as ([name person] & Hitem & Hin).
    exists name, person, snap. repeat split; try assumption.
    eapply Permutation_in; [apply isort_perm | exact Hin].
  - intros (Hne & name & person & snap & Hitem & Hin & Hs). right.
    split; [exact Hne|]. exists snap. split; [|exact Hs].
    apply in_flat_map. exists (name, person). split; [exact Hitem|].
    eapply Permutation_in; [symmetry; apply isort_perm | exact Hin].
Qed.


Example snapshot_dates_sample :
  snapshot_dates_sorted sample_data = ["2024-03-01"; "2024-05-01"]
  /\ snapshot_dates_sorted returning_data = ["2024-01-01"; "2024-02-01"; "2024-03-01"].
Proof. split; vm_compute; reflexivity. Qed.

Lemma list_fmap_map {A B : Type} (f : A -> B) (l : list A) : f <$> l = map f l.
Proof. induction l as [|a t IH]; [reflexivity|]. cbn. now rewrite IH. Qed.

Lemma main_stats_date (data : list (string * Person)) (d : string) (r : StatsRow) :
  result_stats_map (main data) !! d = Some r -> row_date r = d.
Proof.
  rewrite main_stats_fold, stats_fold_lookup, lookup_empty. cbn [default from_option id].
  destruct (rows_of_date d (load_rows data)) as [|row rs]; [discriminate|].
  intros [= <-]. now destruct (add_rows_fields (row :: rs) (new_stats_row d)) as [Hd _].
Qed.

Lemma stats_rows_dates (data : list (string * Person)) :
  map row_date (map snd (map_to_list (result_stats_map (main data))))
  = map fst (map_to_list (result_stats_map (main data))).
Proof.
  rewrite map_map. apply map_ext_in. intros [d r] Hin. cbn.
  apply (main_stats_date data). apply elem_of_map_to_list. now apply list_elem_of_In.
Qed.

Lemma by_date_sorted (rows : list StatsRow) :
  StronglySorted (fun a b => str_le (row_date a) (row_date b)) (isort by_date rows).
Proof.
  apply (isort_sorted by_date).
  - intros a b. apply str_le_total.
  - intros a b c. apply str_le_trans.
Qed.

(** X9. [historyStats] holds one row for each date of [snapshotDates], in the
    same order; and it is the same list in whatever order the [dict] of
    the statistics yields its rows. *)
Theorem history_stats_rows (data : list (string * Person)) (rows : list StatsRow) :
  Permutation rows (map snd (map_to_list (result_stats_map (main data)))) ->
  isort by_date rows = history_stats (result_stats_map (main data))
  /\ map row_date (isort by_date rows) = snapshot_dates_sorted data.
Proof.
  intros Hperm.
  assert (Hnd : List.NoDup (map row_date (map snd (map_to_list (result_stats_map (main data)))))).
  { rewrite stats_rows_dates. apply NoDup_ListNoDup.
    rewrite <- list_fmap_map.
    apply (NoDup_fst_map_to_list (result_stats_map (main data))). }
  assert (Heq : isort by_date rows = history_stats (result_stats_map (main data))).
  { unfold history_stats. apply (sorted_by_key_unique row_date); try apply by_date_sorted.
    - rewrite !isort_perm. exact Hperm.
    - apply (Permutation_NoDup (l := map row_date (map snd (map_to_list (result_stats_map (main data)))))); [|exact Hnd].
      apply Permutation_map. symmetry. rewrite isort_perm. exact Hperm. }
  split; [exact Heq|]. rewrite Heq. unfold history_stats, snapshot_dates_sorted.
  apply (sorted_by_key_unique (fun d => d)).
  - apply (sorted_keys row_date), by_date_sorted.
  - apply sorted_dates_sorted.
  - apply Permutation.NoDup_Permutation.
    + apply (Permutation_NoDup (l := map row_date (map snd (map_to_list (result_stats_map (main data)))))); [|exact Hnd].
      apply Permutation_map. symmetry. apply isort_perm.
    + apply sorted_dates_distinct.
    + intros d. rewrite in_sorted_dates.
      destruct (first_pass_dates data) as [<- _].
      change (stats_map (globals (first_pass data))) with (result_stats_map (main data)).
      rewrite elem_of_dom.
      assert (Hin : In d (map row_date (isort by_date (map snd (map_to_list (result_stats_map (main data))))))
                    <-> In d (map row_date (map snd (map_to_list (result_stats_map (main data)))))).
      { split; apply Permutation_in, Permutation_map; [|symmetry]; apply isort_perm. }
      rewrite Hin, stats_rows_dates, in_map_iff. split.
      * intros ([k r] & <- & Hk). exists r. apply elem_of_map_to_list.
        now apply list_elem_of_In.
      * intros [r Hr]. exists (d, r). split; [reflexivity|].
        apply list_elem_of_In. now apply elem_of_map_to_list.
  - rewrite map_id.
    apply (Permutation_NoDup (l := map row_date (map snd (map_to_list (result_stats_map (main data)))))); [|exact Hnd].
    apply Permutation_map. symmetry. apply isort_perm.
Qed.

Lemma history_stats_rows_witness :
  map row_date
    (isort by_date (rev (map snd (map_to_list (result_stats_map (main sample_data))))))
  = ["2024-03-01"; "2024-05-01"].
Proof.
  destruct (history_stats_rows sample_data
              (rev (map snd (map_to_list (result_stats_map (main sample_data))))))
    as [_ ->].
  - symmetry. apply Permutation_rev.
  - vm_compute. reflexivity.
Defined.

(** ** The optimized passes of the stats-map benchmark *)

Lemma add_to_row_date (is_unclass : bool) (snap_pay : Q) (r : StatsRow) :
  row_date (add_to_row is_unclass snap_pay r) = row_date r.
Proof. unfold add_to_row. now destruct is_unclass. Qed.

Lemma stats_add_dated (date : string) (is_unclass : bool) (snap_pay : Q)
    (stats_map : gmap string StatsRow) :
  dated stats_map -> dated (stats_add date is_unclass snap_pay stats_map).
Proof.
  intros Hd. unfold stats_add. apply map_Forall_insert_2; [|exact Hd].
  rewrite add_to_row_date.
  destruct (stats_map !! date) as [r|] eqn:Hr; [exact (Hd _ _ Hr) | reflexivity].
Qed.

Lemma optimized_stats_add_dated (date : string) (is_unclass : bool) (snap_pay : Q)
    (stats_map : gmap string StatsRow) :
  dated stats_map ->
  optimized_stats_add date is_unclass snap_pay stats_map
  = stats_add date is_unclass snap_pay stats_map.
Proof.
  intros Hd. unfold optimized_stats_add, stats_add. f_equal. f_equal.
  destruct (stats_map !! date) as [r|] eqn:Hr; cbn [default from_option id].
  - rewrite (Hd _ _ Hr). destruct date; [|reflexivity].
    destruct r as [d ? ? ? ? ?]. cbn. f_equal. symmetry. exact (Hd _ _ Hr).
  - reflexivity.
Qed.

Lemma optimized_fold (rows : list Row) (stats_map : gmap string StatsRow)
    (peer_buckets : gmap string (gmap string (list Q))) :
  dated stats_map ->
  fold_left
    (fun st (row : Row) =>
       let '(date, is_unclass, snap_pay, peer_key) := row in
       (optimized_stats_add date is_unclass snap_pay (fst st),
        match peer_key with
        | Some (String _ _ as key) => peers_add date key snap_pay (snd st)
        | _ => snd st
        end))
    rows (stats_map, peer_buckets)
  = (fold_left stats_step rows stats_map, fold_left peers_step rows peer_buckets)
  /\ fold_left
       (fun stats_map (row : Row) =>
          let '(date, is_unclass, snap_pay, _peer_key) := row in
          optimized_stats_add date is_unclass snap_pay stats_map)
       rows stats_map
     = fold_left stats_step rows stats_map.
Proof.
  revert stats_map peer_buckets.
  induction rows as [|[[[date u] p] k] rows IH]; intros stats_map peer_buckets Hd;
    cbn [fold_left fst snd]; [now split|].
  rewrite (optimized_stats_add_dated _ _ _ _ Hd).
  apply (IH (stats_add date u p stats_map)). now apply stats_add_dated.
Qed.

(** X10. The parity the benchmark asserts holds on any rows: the optimized
    passes, which start a date from a row without a date and fill the date
    in, return what the current passes return. *)
Theorem optimized_passes_parity (rows : list Row) :
  optimized_stats_only rows = current_stats_only rows
  /\ optimized_stats_and_peers rows = current_stats_and_peers rows
  /\ peer_bucket_counts (snd (optimized_stats_and_peers rows))
     = peer_bucket_counts (snd (current_stats_and_peers rows)).
Proof.
  assert (Hpar : optimized_stats_only rows = current_stats_only rows
                 /\ optimized_stats_and_peers rows = current_stats_and_peers rows).
  { destruct (optimized_fold rows ∅ ∅) as [Hboth Hstats]; [apply map_Forall_empty|].
    split.
    - exact Hstats.
    - unfold optimized_stats_and_peers. rewrite Hboth.
      now rewrite current_stats_and_peers_split. }
  destruct Hpar as [H1 H2]. now rewrite H1, H2.
Qed.

Example optimized_stats_sample :
  optimized_stats_only [("", false, 10, None); ("2024-03-01", true, 5, None)]
  = current_stats_only [("", false, 10, None); ("2024-03-01", true, 5, None)].
Proof. vm_compute. reflexivity. Qed.

(** ** The COLA loop in closed form *)





(** ** The COLA-loop benchmark *)

Lemma optimized_event_fold (pays : gmap string Q) (cola_pairs : list ColaPair)
    (acc : ColaAcc) :
  fold_left (optimized_event pays) (flat_map eval_pair_of cola_pairs) acc
  = fold_left (cola_event pays) cola_pairs acc.
Proof.
  revert acc. induction cola_pairs as [|event rest IH]; intros acc;
    cbn [flat_map fold_left]; [reflexivity|].
  rewrite fold_left_app, IH. f_equal.
  unfold eval_pair_of, cola_event.
  destruct (beforeDate event) as [[|cb rb]|]; try reflexivity.
  destruct (afterDate event) as [[|ca ra]|]; try reflexivity.
  now destruct (String.eqb (String cb rb) (String ca ra)).
Qed.

(** X12. The parity the benchmark asserts holds on any fixture: the loop over
    the pairs filtered beforehand leaves, for any pays, the accumulators
    the loop of [main] leaves on the pairs as [build_cola_pairs] made
    them, and the two runs return the same results for every name. *)
Theorem cola_loop_parity (names : list string) (index : gmap string bool)
    (snap_pay_map : gmap string (gmap string Q)) (cola_pairs : list ColaPair) :
  run_optimized names index snap_pay_map (flat_map eval_pair_of cola_pairs)
  = run_current names index snap_pay_map cola_pairs
  /\ forall pays,
       fold_left (optimized_event pays) (flat_map eval_pair_of cola_pairs) init_cola
       = cola_eval pays cola_pairs.
Proof.
  split; [|intros pays; apply optimized_event_fold].
  unfold run_optimized, run_current. generalize (∅ : gmap string ColaResult).
  induction names as [|name rest IH]; intros results; cbn [fold_left]; [reflexivity|].
  rewrite IH. f_equal. destruct (index !! name) as [[|]|]; try reflexivity.
  now rewrite optimized_event_fold.
Qed.








(** ** An event that takes effect on a snapshot date *)






(** ** A list of rows sorted by the key they are stored under *)

Section SortedValues.
Context {V : Type} (key : V -> string) (m : gmap string V).
Hypothesis keyed : map_Forall (fun k v => key v = k) m.




End SortedValues.

(** ** The class transitions of a year *)










Example class_transitions_sample :
  class_transitions_sorted returning_data = [mkTransitionRow "2024" 2 2]
  /\ changes_2024 = [("2024", false); ("2024", true); ("2024", true); ("2024", false)].
Proof. split; vm_compute; reflexivity. Qed.

(** ** What the first pass keeps of the last snapshot *)

Lemma last_flags_fold (n : nat) (timeline : list Snapshot) (idx : nat)
    (flags : Q * bool * bool) :
  (idx + length timeline = n)%nat -> snd flags = false ->
  snd (fold_left (last_flags_step n) timeline (idx, flags))
  = match last timeline with
    | None => flags
    | Some snap =>
        (calculate_snapshot_pay snap,
         existsb job_missing (default [] (Jobs snap)),
         existsb (fun job => Qle_bool 100 (job_pct job)) (default [] (Jobs snap)))
    end.
Proof.
  revert idx flags. induction timeline as [|snap rest IH]; intros idx flags Hn Hfull;
    cbn [fold_left]; [reflexivity|].
  destruct flags as [[total_pay pay_missing] is_full_time]. cbn in Hfull. subst is_full_time.
  cbn [last_flags_step]. cbn [length] in Hn.
  destruct rest as [|next rest].
  - cbn [fold_left snd last]. cbn [length] in Hn.
    replace (idx =? n - 1)%nat with true by (symmetry; apply Nat.eqb_eq; lia).
    reflexivity.
  - replace (idx =? n - 1)%nat with false
      by (symmetry; apply Nat.eqb_neq; cbn [length] in Hn; lia).
    rewrite IH; [reflexivity | lia | reflexivity].
Qed.

Lemma last_filter_keeps {A : Type} (P : A -> Prop) `{forall x, Decision (P x)}
    (l : list A) (x : A) :
  last l = Some x -> P x -> last (filter P l) = Some x.
Proof.
  intros Hlast Hx. apply last_Some in Hlast as [l' ->].
  rewrite filter_app, filter_cons_True, filter_nil by exact Hx. apply last_snoc.
Qed.

Lemma entry_of_person_last_date (person : Person) :
  _lastDate (entry_of_person person)
  = match last (sort_timeline (Timeline person)) with
    | Some snap => date_key snap
    | None => ""
    end
  /\ _hasTimeline (entry_of_person person)
     = match Timeline person with [] => false | _ => true end.
Proof.
  unfold entry_of_person, entry_of_walk. cbn [_lastDate _hasTimeline]. split.
  - now destruct (last (sort_timeline (Timeline person))).
  - pose proof (isort_length (fun a b => String.leb (date_key a) (date_key b))
                  (Timeline person)) as Hlen.
    fold (sort_timeline (Timeline person)) in Hlen.
    destruct (sort_timeline (Timeline person)), (Timeline person);
      try reflexivity; discriminate.
Qed.

(** X16. The three fields read off the last turn of the loop are those of the
    last snapshot of the sorted timeline: [_totalPay] is its pay,
    [_payMissing] says that one of its jobs has no usable rate and
    [_isFullTime] that one of them has a percentage of 100 or more.  When
    that snapshot has a date, the date is [_lastDate] and [_totalPay] is
    the pay the COLA evaluation reads at this date. *)
Theorem last_snapshot_fields (person : Person) :
  match last (sort_timeline (Timeline person)) with
  | None =>
      last_flags (sort_timeline (Timeline person)) = (0, false, false)
      /\ _lastDate (entry_of_person person) = ""
  | Some snap =>
      last_flags (sort_timeline (Timeline person))
      = (calculate_snapshot_pay snap,
         existsb job_missing (default [] (Jobs snap)),
         existsb (fun job => Qle_bool 100 (job_pct job)) (default [] (Jobs snap)))
      /\ if truthy (Date snap)
         then Date snap = Some (_lastDate (entry_of_person person))
              /\ pay_at (pays_of_person person) (_lastDate (entry_of_person person))
                 = fst (fst (last_flags (sort_timeline (Timeline person))))
         else _lastDate (entry_of_person person) = ""
  end.
Proof.
  assert (Hflags : last_flags (sort_timeline (Timeline person))
                   = match last (sort_timeline (Timeline person)) with
                     | None => (0, false, false)
                     | Some snap =>
                         (calculate_snapshot_pay snap,
                          existsb job_missing (default [] (Jobs snap)),
                          existsb (fun job => Qle_bool 100 (job_pct job))
                            (default [] (Jobs snap)))
                     end).
  { unfold last_flags. now rewrite (last_flags_fold _ _ 0 (0, false, false)). }
  destruct (entry_of_person_last_date person) as [Hdate _].
  rewrite Hflags, Hdate.
  destruct (last (sort_timeline (Timeline person))) as [snap|] eqn:Hlast; [|now split].
  split; [reflexivity|]. unfold date_key.
  destruct (Date snap) as [[|c r]|] eqn:Hd; cbn [truthy str_or]; try reflexivity.
  split; [reflexivity|]. cbn [fst]. unfold pay_at, pays_of_person, walk_of.
  rewrite walk_pays_fold by discriminate.
  now rewrite (last_filter_keeps _ _ snap Hlast Hd).
Qed.

Example last_snapshot_fields_sample :
  last_flags (sort_timeline (Timeline alice)) = (1070 * (100 / 100), false, true)
  /\ last_flags [mkSnapshot (Some "2024-03-01") None (Some [monthly_job; half_time_job])]
     = (0 + 52000.50 * (50 / 100), true, true).
Proof. split; vm_compute; reflexivity. Qed.

(** ** The index after the later passes *)

Lemma first_pass_index_names (data : list (string * Person)) (name : string) :
  is_Some (index (first_pass data) !! name) <-> In name (map fst data).
Proof.
  unfold first_pass. rewrite first_pass_fold. cbn [index].
  assert (Hgen : forall m : gmap string IndexEntry,
            is_Some (fold_left (fun m item => <[fst item := entry_of_person (snd item)]> m)
                       data m !! name)
            <-> is_Some (m !! name) \/ In name (map fst data)).
  { induction data as [|[n p] rest IH]; intros m; cbn [fold_left map fst snd].
    - split; [now left | intros [H|[]]; exact H].
    - rewrite IH. destruct (decide (n = name)) as [->|Hne].
      + rewrite lookup_insert_eq. split; [intros _; right; now left | intros _; left; eauto].
      + rewrite lookup_insert_ne by exact Hne. cbn. tauto. }
  rewrite Hgen, lookup_empty. split; [intros [[? [=]]|H]; exact H | now right].
Qed.


Lemma same_walk_fields_trans (e0 e1 e2 : IndexEntry) :
  same_walk_fields e0 e1 -> same_walk_fields e1 e2 -> same_walk_fields e0 e2.
Proof.
  unfold same_walk_fields. intros (H1 & H2 & H3 & H4 & H5) (K1 & K2 & K3 & K4 & K5).
  repeat split; congruence.
Qed.

Lemma set_peer_percentile_fields (p : option Q) (e : IndexEntry) :
  same_walk_fields e (set_peer_percentile p e).
Proof. now repeat split. Qed.

Lemma cola_status_fields (cola_pairs : list ColaPair) (pays : gmap string Q)
    (e : IndexEntry) :
  same_walk_fields e (cola_status cola_pairs pays e).
Proof. unfold cola_status. destruct (_isUnclass e); now repeat split. Qed.

Lemma final_entry_walk_fields (data : list (string * Person)) (person : Person) :
  same_walk_fields (entry_of_person person) (final_entry data person).
Proof.
  unfold final_entry.
  eapply same_walk_fields_trans; [apply set_peer_percentile_fields | apply cola_status_fields].
Qed.

Section Frame.
Context {X : Type} (step : gmap string IndexEntry -> X -> gmap string IndexEntry).
Hypothesis step_lookup : forall m x k,
  exists f, (forall e, same_walk_fields e (f e)) /\ step m x !! k = f <$> m !! k.

End Frame.

Lemma fold_left_dom {X : Type}
    (step : gmap string IndexEntry -> X -> gmap string IndexEntry)
    (l : list X) (m : gmap string IndexEntry) :
  (forall m x, dom (step m x) = dom m) -> dom (fold_left step l m) = dom m.
Proof.
  intros Hstep. revert m. induction l as [|x l IH]; intros m; cbn [fold_left];
    [reflexivity|].
  now rewrite IH, Hstep.
Qed.

Lemma main_index_names (data : list (string * Person)) (name : string) :
  is_Some (result_index (main data) !! name) <-> In name (map fst data).
Proof.
  rewrite <- first_pass_index_names, <- !elem_of_dom.
  assert (Hdom : dom (result_index (main data)) = dom (index (first_pass data))).
  { unfold main. cbn [result_index]. rewrite !fold_left_dom; [reflexivity| |].
    - intros m x. apply dom_alter_L.
    - intros m x. unfold cola_person. destruct (m !! x) as [idx|] eqn:Hx; [|reflexivity].
      rewrite dom_insert_L. apply elem_of_dom_2 in Hx.
      now apply subseteq_union_1_L, singleton_subseteq_l. }
  now rewrite Hdom.
Qed.


Example index_frame_sample :
  (_lastDate <$> result_index (main sample_data) !! "alice") = Some "2024-05-01"
  /\ result_index (main sample_data) !! "zed" = None.
Proof. split; vm_compute; reflexivity. Qed.

(** ** The last date of an employee *)




(** ** [latestClassDate] and [latestUnclassDate] *)

Lemma later_ge (a b : string) : str_le a (later a b) /\ str_le b (later a b).
Proof.
  unfold later. destruct (String.ltb a b) eqn:Hlt.
  - split; [|apply str_le_refl].
    destruct (str_le_total a b) as [H|H]; [exact H|].
    now apply str_le_not_lt in H; congruence.
  - split; [apply str_le_refl|].
    destruct (str_le_total a b) as [H|H]; [|exact H].
    apply str_le_cases in H as [Hc| ->]; [|apply str_le_refl].
    unfold String.ltb in Hlt. now rewrite Hc in Hlt.
Qed.

Lemma later_cases (a b : string) : later a b = a \/ later a b = b.
Proof. unfold later. destruct (String.ltb a b); auto. Qed.

Lemma later_empty (a : string) : later a "" = a.
Proof. unfold later, String.ltb. now destruct a. Qed.

Lemma latest_step_later (c u : string) (item : string * Person) :
  latest_step (c, u) item
  = if last_is_unclass (snd item)
    then (c, later u (_lastDate (entry_of_person (snd item))))
    else (later c (_lastDate (entry_of_person (snd item))), u).
Proof.
  unfold latest_step, last_is_unclass.
  destruct (entry_of_person_last_date (snd item)) as [-> _]. unfold date_key.
  destruct (last (sort_timeline (Timeline (snd item)))) as [snap|];
    [|now rewrite later_empty].
  destruct (Date snap) as [[|ch r]|]; cbn [str_or]; rewrite ?later_empty;
    now destruct (source_is_unclass snap).
Qed.

Lemma latest_fold (data : list (string * Person)) (c0 u0 : string) :
  (str_le c0 (fst (fold_left latest_step data (c0, u0)))
   /\ str_le u0 (snd (fold_left latest_step data (c0, u0))))
  /\ (forall item, In item data ->
        str_le (_lastDate (entry_of_person (snd item)))
          (if last_is_unclass (snd item)
           then snd (fold_left latest_step data (c0, u0))
           else fst (fold_left latest_step data (c0, u0))))
  /\ (fst (fold_left latest_step data (c0, u0)) = c0
      \/ exists item, In item data /\ last_is_unclass (snd item) = false
           /\ _lastDate (entry_of_person (snd item))
              = fst (fold_left latest_step data (c0, u0)))
  /\ (snd (fold_left latest_step data (c0, u0)) = u0
      \/ exists item, In item data /\ last_is_unclass (snd item) = true
           /\ _lastDate (entry_of_person (snd item))
              = snd (fold_left latest_step data (c0, u0))).
Proof.
  revert c0 u0. induction data as [|item rest IH]; intros c0 u0; cbn [fold_left].
  - repeat split; try apply str_le_refl; try (now left). intros item [].
  - rewrite latest_step_later.
    set (d := _lastDate (entry_of_person (snd item))).
    destruct (later_ge c0 d) as [Hc0 Hcd]. destruct (later_ge u0 d) as [Hu0 Hud].
    destruct (last_is_unclass (snd item)) eqn:Hk.
    + destruct (IH c0 (later u0 d)) as ([Hc Hu] & Hall & Hcw & Huw).
      split; [split; [exact Hc | apply (str_le_trans _ (later u0 d)); assumption]|].
      split; [|split].
      * intros it [<-|Hin]; [|now apply Hall].
        fold d. rewrite Hk. apply (str_le_trans _ (later u0 d)); assumption.
      * destruct Hcw as [Heq|(it & Hin & Hit)]; [now left|].
        right. exists it. split; [now right | exact Hit].
      * destruct Huw as [Heq|(it & Hin & Hit)].
        -- rewrite Heq. destruct (later_cases u0 d) as [Hl|Hl]; [now left|].
           right. exists item. split; [now left|]. split; [exact Hk | now rewrite Hl].
        -- right. exists it. split; [now right | exact Hit].
    + destruct (IH (later c0 d) u0) as ([Hc Hu] & Hall & Hcw & Huw).
      split; [split; [apply (str_le_trans _ (later c0 d)); assumption | exact Hu]|].
      split; [|split].
      * intros it [<-|Hin]; [|now apply Hall].
        fold d. rewrite Hk. apply (str_le_trans _ (later c0 d)); assumption.
      * destruct Hcw as [Heq|(it & Hin & Hit)].
        -- rewrite Heq. destruct (later_cases c0 d) as [Hl|Hl]; [now left|].
           right. exists item. split; [now left|]. split; [exact Hk | now rewrite Hl].
        -- right. exists it. split; [now right | exact Hit].
      * destruct Huw as [Heq|(it & Hin & Hit)]; [now left|].
        right. exists it. split; [now right | exact Hit].
Qed.

Lemma index_entry_of (data : list (string * Person)) (name : string) (e : IndexEntry) :
  List.NoDup (map fst data) -> result_index (main data) !! name = Some e ->
  exists person, In (name, person) data /\ e = final_entry data person.
Proof.
  intros Hnd He.
  assert (Hname : In name (map fst data)).
  { apply main_index_names. now rewrite He. }
  apply in_map_iff in Hname as ([n person] & Hn & Hin). cbn in Hn. subst n.
  exists person. split; [exact Hin|].
  rewrite (main_index_lookup data name person Hnd Hin) in He. now injection He.
Qed.

(** X19. [latestClassDate] is the latest [_lastDate] among the entries of the
    index that are not unclassified, and [latestUnclassDate] the latest
    among those that are; either is empty when no entry of its class has
    a date. *)
Theorem latest_dates_greatest (data : list (string * Person)) :
  List.NoDup (map fst data) ->
  latest_of_class (result_index (main data)) false (fst (latest_dates data))
  /\ latest_of_class (result_index (main data)) true (snd (latest_dates data)).
Proof.
  intros Hnd. unfold latest_dates.
  destruct (latest_fold data "" "") as (_ & Hall & Hc & Hu).
  assert (Hentry : forall person,
            _lastDate (final_entry data person) = _lastDate (entry_of_person person)
            /\ _isUnclass (final_entry data person) = last_is_unclass person).
  { intros person. destruct (final_entry_walk_fields data person) as (_ & -> & -> & _).
    now rewrite entry_of_person_is_unclass. }
  split; split.
  - intros name e He Hclass.
    destruct (index_entry_of data name e Hnd He) as (person & Hin & ->).
    destruct (Hentry person) as [Hd Hk]. rewrite Hd. rewrite Hk in Hclass.
    specialize (Hall (name, person) Hin). cbn [snd] in Hall. now rewrite Hclass in Hall.
  - destruct Hc as [Hc|([name person] & Hin & Hk & Hd)]; [now left|]. right.
    exists name, (final_entry data person). destruct (Hentry person) as [-> ->].
    split; [now apply main_index_lookup | now split].
  - intros name e He Hclass.
    destruct (index_entry_of data name e Hnd He) as (person & Hin & ->).
    destruct (Hentry person) as [Hd Hk]. rewrite Hd. rewrite Hk in Hclass.
    specialize (Hall (name, person) Hin). cbn [snd] in Hall. now rewrite Hclass in Hall.
  - destruct Hu as [Hu|([name person] & Hin & Hk & Hd)]; [now left|]. right.
    exists name, (final_entry data person). destruct (Hentry person) as [-> ->].
    split; [now apply main_index_lookup | now split].
Qed.

Lemma latest_dates_greatest_witness :
  latest_dates returning_data = ("2024-03-01", "2024-02-01")
  /\ latest_of_class (result_index (main returning_data)) false "2024-03-01"
  /\ latest_of_class (result_index (main returning_data)) true "2024-02-01".
Proof.
  split; [vm_compute; reflexivity|].
  exact (latest_dates_greatest returning_data returning_data_names).
Defined.

(** ** The percentile rises with the pay *)





(** ** Two snapshots of one date, and the members of a cohort *)

Lemma pays_of_person_at_witness :
  pay_at (pays_of_person twice_a_day) "2024-03-01" = 1200 * (100 / 100).
Proof.
  rewrite (pays_of_person_at twice_a_day "2024-03-01"); [|discriminate].
  vm_compute. reflexivity.
Defined.

